(** * swissglacier: the counters, the audio toggle and the map of script.js

    A shallow embedding of [src/script.js].  JavaScript numbers are IEEE 754
    binary64 values; every arithmetic operator of the script returns the exact
    real result rounded to the nearest binary64 value, ties to even.  The
    embedding keeps that rounding: nothing below is computed over the reals. *)

From Stdlib Require Import ZArith Lia List Bool Ascii String.
From Stdlib Require Decimal DecimalString DecimalPos.
From Stdlib Require Import Floats.SpecFloat.
Import ListNotations.

Local Open Scope Z_scope.

(** ** The Number type *)

Module Num.

(** Every finite binary64 value is an integer multiple of 2^-1074, the
    smallest subnormal.  A finite number is stored as its sign and its
    magnitude counted in that unit, so that 1.0 has magnitude 2^1074. *)
Inductive number : Type :=
  | NaN
  | Inf (neg : bool)
  | Fin (neg : bool) (k : N).

Definition one_units : Z := 2 ^ 1074.

(** First magnitude that no longer fits: 2^1024, in units. *)
Definition top : Z := 2 ^ 2098.

(** The integer next to f + r/q chosen by roundTiesToEven, given twice the
    remainder r (0 <= r < q). *)
Definition tie_even (f twice_r q : Z) : Z :=
  match twice_r ?= q with
  | Lt => f
  | Gt => f + 1
  | Eq => if Z.even f then f else f + 1
  end.

(** Nearest integer to p/q, ties to the even one (q > 0). *)
Definition rne (p q : Z) : Z := tie_even (p / q) (2 * (p mod q)) q.

(** Exponent (in units) of the last kept bit of a magnitude whose integer
    part is n: 53 significant bits, never below the subnormal unit. *)
Definition lsb_exp (n : Z) : Z := Z.max 0 (Z.log2 n - 52).

(** Magnitude p/q units rounded to 53 significant bits: the nearest
    multiple of 2^e, where e is the exponent of the last kept bit. *)
Definition nearest53 (p q : Z) : Z :=
  let e := lsb_exp (p / q) in
  rne p (q * 2 ^ e) * 2 ^ e.

Fixpoint trailing_zeros (p : positive) : Z :=
  match p with
  | xO p' => Z.succ (trailing_zeros p')
  | _ => 0
  end.

Definition ctz (z : Z) : Z :=
  match z with
  | Zpos p => trailing_zeros p
  | _ => 0
  end.

(** [nearest53] as it is evaluated: the fraction is first reduced by the
    power of two common to p and q, and the e low bits of p are split off
    before the division instead of being divided through.  [rnd_nearest53]
    below shows that the value is the same. *)
Definition rnd (p q : Z) : Z :=
  let c := Z.min (ctz p) (ctz q) in
  let p := Z.shiftr p c in
  let q := Z.shiftr q c in
  let e := lsb_exp (p / q) in
  let hi := Z.shiftr p e in
  let lo := p - Z.shiftl hi e in
  tie_even (hi / q) (2 * (Z.shiftl (hi mod q) e + lo)) (Z.shiftl q e)
  * 2 ^ e.

Definition of_mag (s : bool) (k : Z) : number :=
  if top <=? k then Inf s else Fin s (Z.to_N k).

(** roundTiesToEven of the real (-1)^s * p/q * 2^-1074. *)
Definition round (s : bool) (p q : Z) : number := of_mag s (rnd p q).

Definition neg (a : number) : number :=
  match a with
  | NaN => NaN
  | Inf s => Inf (negb s)
  | Fin s k => Fin (negb s) k
  end.

Definition mul (a b : number) : number :=
  match a, b with
  | NaN, _ | _, NaN => NaN
  | Inf s, Inf s' => Inf (xorb s s')
  | Inf s, Fin s' k | Fin s k, Inf s' =>
      if (k =? 0)%N then NaN else Inf (xorb s s')
  | Fin s k, Fin s' k' => round (xorb s s') (Z.of_N k * Z.of_N k') one_units
  end.

Definition div (a b : number) : number :=
  match a, b with
  | NaN, _ | _, NaN => NaN
  | Inf _, Inf _ => NaN
  | Inf s, Fin s' _ => Inf (xorb s s')
  | Fin s _, Inf s' => Fin (xorb s s') 0
  | Fin s k, Fin s' k' =>
      if (k' =? 0)%N then (if (k =? 0)%N then NaN else Inf (xorb s s'))
      else round (xorb s s') (Z.of_N k * one_units) (Z.of_N k')
  end.

(** Signed value of a finite number, in units. *)
Definition sval (s : bool) (k : N) : Z := if s then - Z.of_N k else Z.of_N k.

Definition add (a b : number) : number :=
  match a, b with
  | NaN, _ | _, NaN => NaN
  | Inf s, Inf s' => if Bool.eqb s s' then Inf s else NaN
  | Inf s, Fin _ _ | Fin _ _, Inf s => Inf s
  | Fin s k, Fin s' k' =>
      let z := sval s k + sval s' k' in
      if z =? 0 then Fin (s && s') 0 else round (z <? 0) (Z.abs z) 1
  end.

(** [x - y] is [x + (-y)]. *)
Definition sub (a b : number) : number := add a (neg b).

(** Order embedding of the non-NaN numbers into Z; both zeros map to 0. *)
Definition key (a : number) : Z :=
  match a with
  | NaN => 0
  | Inf s => if s then - top else top
  | Fin s k => sval s k
  end.

Definition is_nan (a : number) : bool :=
  match a with NaN => true | _ => false end.

(** The [<] operator: false as soon as an operand is NaN. *)
Definition ltb (a b : number) : bool :=
  negb (is_nan a) && negb (is_nan b) && (key a <? key b).

Definition le (a b : number) : Prop :=
  is_nan a = false /\ is_nan b = false /\ key a <= key b.

Definition lt (a b : number) : Prop :=
  is_nan a = false /\ is_nan b = false /\ key a < key b.

(** The Number of an integer, and of a decimal literal n/d. *)
Definition of_Z (z : Z) : number := round (z <? 0) (Z.abs z * one_units) 1.
Definition lit (n d : Z) : number := round false (n * one_units) d.

Definition zero : number := Fin false 0.

(** [Math.max] on two arguments: NaN is contagious, +0 is above -0. *)
Definition max (a b : number) : number :=
  match a, b with
  | NaN, _ | _, NaN => NaN
  | _, _ =>
      if key a <? key b then b
      else if key b <? key a then a
      else match a with Fin true _ => b | _ => a end
  end.

(** A magnitude is a binary64 magnitude when it is below 2^1024 and has no
    bit under the 53 leading ones. *)
Definition representable (a : number) : Prop :=
  match a with
  | Fin _ k => Z.of_N k < top /\ (Z.of_N k) mod 2 ^ lsb_exp (Z.of_N k) = 0
  | _ => True
  end.

(** Finite magnitudes stay under 2^1024. *)
Definition in_range (a : number) : Prop :=
  match a with Fin _ k => Z.of_N k < top | _ => True end.

Definition sgn (s : bool) (z : Z) : Z := if s then - z else z.

(** Signed rounding of an integer number of units, as [add] does it. *)
Definition srnd (z : Z) : Z :=
  if z <? 0 then - Z.min top (rnd (- z) 1) else Z.min top (rnd z 1).

(** The same value in the Standard Library's binary64 format. *)
Definition to_spec (a : number) : spec_float :=
  match a with
  | NaN => S754_nan
  | Inf s => S754_infinity s
  | Fin s k =>
      match Z.of_N k with
      | Zpos m =>
          let e := lsb_exp (Zpos m) in
          match Z.shiftr (Zpos m) e with
          | Zpos m' => S754_finite s m' (e - 1074)
          | _ => S754_nan
          end
      | _ => S754_zero s
      end
  end.

End Num.

Import Num.

Declare Scope num_scope.
Delimit Scope num_scope with num.
Infix "*" := mul : num_scope.
Infix "/" := div : num_scope.
Infix "-" := sub : num_scope.
Infix "+" := add : num_scope.

(** ** The constants of the script *)

Definition START_VOLUME_KM3 : number := lit 464 10.
Definition YEARLY_MELT_KM3 : number := lit 12 10.
Definition TRUCK_CAPACITY_L : number := of_Z 10000.

Definition SECONDS_PER_YEAR : number :=
  (of_Z 365 * of_Z 24 * of_Z 60 * of_Z 60)%num.
Definition MELT_RATE_M3_PER_SEC : number :=
  ((YEARLY_MELT_KM3 * of_Z 1000000000) / SECONDS_PER_YEAR)%num.
Definition MELT_RATE_L_PER_SEC : number :=
  (MELT_RATE_M3_PER_SEC * of_Z 1000)%num.
Definition TRUCK_RATE_PER_SEC : number :=
  (MELT_RATE_L_PER_SEC / TRUCK_CAPACITY_L)%num.

(** [Date.UTC(2024, 0, 1, 0, 0, 0)], in milliseconds. *)
Definition startOfYear : Z := 1704067200000.

(** The time values a Date can hold: 100 million days either side of 1970. *)
Definition max_time : Z := 8640000000000000.
Definition valid_time (now : Z) : Prop := - max_time <= now <= max_time.

(** The same constants computed by the Standard Library's executable
    specification of IEEE 754 arithmetic, at the binary64 parameters; the
    embedding above is checked against it on the values of the script. *)
Module Reference.

Definition b64 (z : Z) : spec_float := binary_normalize 53 1024 z 0 false.
Definition fmul : spec_float -> spec_float -> spec_float := SFmul 53 1024.
Definition fdiv : spec_float -> spec_float -> spec_float := SFdiv 53 1024.
Definition fsub : spec_float -> spec_float -> spec_float := SFsub 53 1024.

Definition start_volume : spec_float := fdiv (b64 464) (b64 10).
Definition yearly_melt : spec_float := fdiv (b64 12) (b64 10).
Definition seconds_per_year : spec_float :=
  fmul (fmul (fmul (b64 365) (b64 24)) (b64 60)) (b64 60).
Definition melt_rate : spec_float :=
  fdiv (fmul yearly_melt (b64 1000000000)) seconds_per_year.
Definition truck_rate : spec_float :=
  fdiv (fmul melt_rate (b64 1000)) (b64 10000).
Definition seconds_since_start (now : Z) : spec_float :=
  fdiv (fsub (b64 now) (b64 startOfYear)) (b64 1000).
Definition remaining_unclamped (t : spec_float) : spec_float :=
  fsub start_volume (fmul yearly_melt (fdiv t seconds_per_year)).

End Reference.

(** ** The counter arithmetic of [updateCounters]

    Each local of the function is given as a function of the elapsed
    seconds; [now] is the time value read from the clock, in milliseconds. *)

Definition secondsSinceStart (now : Z) : number :=
  ((of_Z now - of_Z startOfYear) / of_Z 1000)%num.

Definition meltedM3 (t : number) : number := (t * MELT_RATE_M3_PER_SEC)%num.
Definition meltedL (t : number) : number := (meltedM3 t * of_Z 1000)%num.
Definition trucks (t : number) : number := (t * TRUCK_RATE_PER_SEC)%num.

Definition remainingKm3 (t : number) : number :=
  let r := (START_VOLUME_KM3 - YEARLY_MELT_KM3 * (t / SECONDS_PER_YEAR))%num in
  if ltb r zero then zero else r.

(** The remaining volume as the specification words it: a maximum with 0. *)
Definition remaining_spec (t : number) : number :=
  max zero (START_VOLUME_KM3 - YEARLY_MELT_KM3 * (t / SECONDS_PER_YEAR))%num.

(** The elapsed time at which the specification puts the end of the ice. *)
Definition depletion_time : number :=
  (SECONDS_PER_YEAR * START_VOLUME_KM3 / YEARLY_MELT_KM3)%num.

(** ** Strings: [toFixed] and [formatNumber] *)

Local Open Scope string_scope.

(** What the host supplies and the script never reaches: the exponent form
    that Number::toString gives to magnitudes of 10^21 and more. *)
Class Host : Type := { Number_toString : number -> string }.

Definition decimal (n : Z) : string :=
  DecimalString.NilEmpty.string_of_uint (N.to_uint (Z.to_N n)).

Fixpoint zeros (n : nat) : string :=
  match n with
  | O => ""
  | S m => String "0" (zeros m)
  end.

(** The integer n for which n / 10^f is nearest to k units, the larger one
    on a tie. *)
Definition nearest_scaled (f : nat) (k : N) : Z :=
  Z.shiftr (2 * Z.of_N k * 10 ^ Z.of_nat f + one_units) 1075.

Definition fixed_digits (f : nat) (k : N) : string :=
  let m := decimal (nearest_scaled f k) in
  match f with
  | O => m
  | _ =>
      let m := if (length m <=? f)%nat then zeros (f + 1 - length m) ++ m
               else m in
      let k := length m in
      substring 0 (k - f) m ++ "." ++ substring (k - f) f m
  end.

(** The sign [toFixed] prints: a minus for x < 0, which -0 is not. *)
Definition minus_sign (s : bool) (k : N) : string :=
  if s && negb (k =? 0)%N then "-" else "".

(** [Number.prototype.toFixed]. *)
Definition toFixed `{Host} (fractionDigits : nat) (x : number) : string :=
  match x with
  | NaN => "NaN"
  | Inf false => "Infinity"
  | Inf true => "-Infinity"
  | Fin s k =>
      if (10 ^ 21 * one_units <=? Z.of_N k)%Z
      then minus_sign s k ++ Number_toString (Fin false k)
      else minus_sign s k ++ fixed_digits fractionDigits k
  end.

Definition is_digit (c : ascii) : bool :=
  let n := N_of_ascii c in ((48 <=? n) && (n <=? 57))%N.

(** The class [\w]. *)
Definition is_word (c : ascii) : bool :=
  let n := N_of_ascii c in
  (is_digit c || ((65 <=? n) && (n <=? 90)) || ((97 <=? n) && (n <=? 122))
   || (n =? 95))%N.

Definition head_is_digit (s : string) : bool :=
  match s with
  | String c _ => is_digit c
  | EmptyString => false
  end.

(** The lookahead [(\d{3})+(?!\d)] tried at the start of [s]. *)
Fixpoint digit_groups (s : string) : bool :=
  match s with
  | String a (String b (String c r)) =>
      is_digit a && is_digit b && is_digit c
      && (negb (head_is_digit r) || digit_groups r)
  | _ => false
  end.

(** The assertion [\B] between [prev] and the start of [s]. *)
Definition non_boundary (prev : option ascii) (s : string) : bool :=
  Bool.eqb
    (match prev with Some c => is_word c | None => false end)
    (match s with String c _ => is_word c | EmptyString => false end).

(** The global replace: a comma goes in at every position that matches. *)
Fixpoint insert_seps (prev : option ascii) (s : string) : string :=
  let rest :=
    match s with
    | EmptyString => EmptyString
    | String c r => String c (insert_seps (Some c) r)
    end in
  if non_boundary prev s && digit_groups s then String "," rest else rest.

(** [formatNumber]; its argument is a string at both call sites. *)
Definition formatNumber (value : string) : string := insert_seps None value.

(** Grouping as the specification words it: a separator every 3 digits,
    counted from the right, and none in front. *)
Fixpoint every3 (l : list ascii) : list ascii :=
  match l with
  | a :: b :: c :: (_ :: _) as r => a :: b :: c :: ","%char :: every3 r
  | _ => l
  end.

Definition grouped (l : list ascii) : list ascii := rev (every3 (rev l)).

Definition group3_spec (s : string) : string :=
  string_of_list_ascii (grouped (list_ascii_of_string s)).

(** A separator stands in front of the last n digits exactly when n is a
    positive multiple of 3. *)
Definition sep_before (n : nat) : bool :=
  ((0 <? n) && (n mod 3 =? 0))%nat.

Fixpoint all_digits (s : string) : bool :=
  match s with
  | EmptyString => true
  | String c r => is_digit c && all_digits r
  end.

(** ** The page: DOM nodes, timers, listeners and the map library's objects *)

(** The properties of a DOM node that the script reads or writes.  The
    document is the family of these nodes by id: how nodes are nested in
    one another is not modelled, so a statement speaks of the nodes it
    names and of no other. *)
Record node : Type := {
  textContent : string;
  classList : list string;
  muted : bool
}.

(** A reference held by the script: [None] is [null], [Some id] designates
    the node of that id in the document, which every holder shares. *)
Definition ref : Type := option string.

Record LatLng : Type := { lat : number; lng : number }.

Record StyleRule : Type := {
  featureType : option string;
  elementType : option string;
  stylers : list (string * string)
}.

(** An options object of the map library; an absent key is [None]. *)
Record MapOptions : Type := {
  center : option LatLng;
  zoom : option number;
  mapTypeId : option string;
  tilt : option number;
  heading : option number;
  disableDefaultUI : option bool;
  styles : option (list StyleRule)
}.

Record GMap : Type := { mapDiv : ref; options : MapOptions }.

(** A marker points at its map by the map's position among the maps. *)
Record Marker : Type := {
  position : LatLng;
  marker_map : nat;
  title : string
}.

(** The two closures the script hands to the host, with the references
    they captured. *)
Inductive callback : Type :=
  | UpdateCounters (volumeEl meltedEl trucksEl : ref)
  | ToggleAudio (videoEl audioToggleBtn : ref).

Record page : Type := {
  document : string -> option node;
  intervals : list (callback * Z);
  listeners : list (string * string * callback);
  window_initMap : bool;
  maps : list GMap;
  markers : list Marker
}.

Inductive exn : Type := TypeError.

Inductive result (A : Type) : Type :=
  | Ok (a : A) (p : page)
  | Throw (e : exn) (p : page).
Arguments Ok {A} a p.
Arguments Throw {A} e p.

(** Statements run on the page and either complete or throw; a throw keeps
    the page as the statements before it left it. *)
Definition M (A : Type) : Type := page -> result A.

Definition ret {A} (a : A) : M A := fun p => Ok a p.

Definition bind {A B} (m : M A) (f : A -> M B) : M B :=
  fun p =>
    match m p with
    | Ok a p' => f a p'
    | Throw e p' => Throw e p'
    end.

Declare Scope js_scope.
Delimit Scope js_scope with js.
Notation "x <- m ;; k" := (bind m (fun x => k))
  (at level 61, m at next level, right associativity) : js_scope.
Notation "m ;; k" := (bind m (fun _ => k))
  (at level 61, right associativity) : js_scope.
Local Open Scope js_scope.

Definition throw {A} (e : exn) : M A := fun p => Throw e p.

Definition with_document (d : string -> option node) (p : page) : page :=
  {| document := d; intervals := intervals p; listeners := listeners p;
     window_initMap := window_initMap p; maps := maps p;
     markers := markers p |}.

(** The document with the node of [id], when there is one, changed by [f]. *)
Definition update_node (id : string) (f : node -> node)
    (d : string -> option node) : string -> option node :=
  fun i => if String.eqb i id then option_map f (d i) else d i.

Definition getElementById (id : string) : M ref :=
  fun p => Ok (match document p id with Some _ => Some id | None => None end) p.

(** A property read or write through [null] throws a TypeError. *)
Definition read_node {A} (r : ref) (f : node -> A) : M A :=
  fun p =>
    match r with
    | None => Throw TypeError p
    | Some id =>
        match document p id with
        | Some n => Ok (f n) p
        | None => Throw TypeError p
        end
    end.

Definition write_node (r : ref) (f : node -> node) : M unit :=
  fun p =>
    match r with
    | None => Throw TypeError p
    | Some id => Ok tt (with_document (update_node id f (document p)) p)
    end.

Definition set_textContent (r : ref) (s : string) : M unit :=
  write_node r (fun n =>
    {| textContent := s; classList := classList n; muted := muted n |}).

Definition set_muted (r : ref) (b : bool) : M unit :=
  write_node r (fun n =>
    {| textContent := textContent n; classList := classList n; muted := b |}).

Definition has_token (tok : string) (l : list string) : bool :=
  existsb (String.eqb tok) l.

(** The token set of a class attribute: every name once, at the place of
    its first occurrence. *)
Fixpoint token_set (l : list string) : list string :=
  match l with
  | [] => []
  | t :: r => t :: filter (fun x => negb (String.eqb t x)) (token_set r)
  end.

(** [classList.add] and [classList.remove]: the token is appended to, or
    taken out of, the token set, and the attribute is written back from the
    set. *)
Definition token_add (tok : string) (l : list string) : list string :=
  let s := token_set l in
  if has_token tok s then s else s ++ [tok].

Definition token_remove (tok : string) (l : list string) : list string :=
  filter (fun t => negb (String.eqb tok t)) (token_set l).

Definition classList_add (r : ref) (tok : string) : M unit :=
  write_node r (fun n =>
    {| textContent := textContent n; classList := token_add tok (classList n);
       muted := muted n |}).

Definition classList_remove (r : ref) (tok : string) : M unit :=
  write_node r (fun n =>
    {| textContent := textContent n;
       classList := token_remove tok (classList n); muted := muted n |}).

Definition setInterval (c : callback) (ms : Z) : M unit :=
  fun p =>
    Ok tt {| document := document p; intervals := intervals p ++ [(c, ms)];
             listeners := listeners p; window_initMap := window_initMap p;
             maps := maps p; markers := markers p |}.

Definition addEventListener (r : ref) (type : string) (c : callback) : M unit :=
  fun p =>
    match r with
    | None => Throw TypeError p
    | Some id =>
        Ok tt {| document := document p; intervals := intervals p;
                 listeners := listeners p ++ [(id, type, c)];
                 window_initMap := window_initMap p; maps := maps p;
                 markers := markers p |}
    end.

Definition set_window_initMap : M unit :=
  fun p =>
    Ok tt {| document := document p; intervals := intervals p;
             listeners := listeners p; window_initMap := true;
             maps := maps p; markers := markers p |}.

(** ** [updateCounters], the click handler and the script body *)

Definition updateCounters `{Host} (now : Z) (volumeEl meltedEl trucksEl : ref)
    : M unit :=
  let t := secondsSinceStart now in
  set_textContent volumeEl (toFixed 2 (remainingKm3 t)) ;;
  set_textContent meltedEl (formatNumber (toFixed 0 (meltedM3 t))) ;;
  set_textContent trucksEl (formatNumber (toFixed 0 (trucks t))).

Definition toggleAudio (videoEl audioToggleBtn : ref) : M unit :=
  m <- read_node videoEl muted ;;
  if m then
    set_muted videoEl false ;;
    set_textContent audioToggleBtn "Ton ausschalten" ;;
    classList_add audioToggleBtn "active"
  else
    set_muted videoEl true ;;
    set_textContent audioToggleBtn "Ton abspielen" ;;
    classList_remove audioToggleBtn "active".

(** The body of the script; [now] is the clock at the first update. *)
Definition script `{Host} (now : Z) : M unit :=
  volumeEl <- getElementById "volume-remaining" ;;
  meltedEl <- getElementById "melted-since" ;;
  trucksEl <- getElementById "truck-count" ;;
  audioToggleBtn <- getElementById "audio-toggle" ;;
  videoEl <- getElementById "background-video" ;;
  updateCounters now volumeEl meltedEl trucksEl ;;
  setInterval (UpdateCounters volumeEl meltedEl trucksEl) 1000 ;;
  addEventListener audioToggleBtn "click" (ToggleAudio videoEl audioToggleBtn) ;;
  set_window_initMap.

(** What the host does with a registered closure when its event comes. *)
Definition run_callback `{Host} (now : Z) (c : callback) : M unit :=
  match c with
  | UpdateCounters v m t => updateCounters now v m t
  | ToggleAudio v b => toggleAudio v b
  end.

(** What the page shows of the audio control. *)
Definition mute_flag (p : page) : option bool :=
  option_map muted (document p "background-video").
Definition label (p : page) : option string :=
  option_map textContent (document p "audio-toggle").
Definition visual_active (p : page) : option bool :=
  option_map (fun n => has_token "active" (classList n))
    (document p "audio-toggle").

(** The text a region of the page shows. *)
Definition shown (id : string) (p : page) : option string :=
  option_map textContent (document p id).

Definition page_of {A} (r : result A) : page :=
  match r with Ok _ p => p | Throw _ p => p end.

Definition threw {A} (r : result A) : bool :=
  match r with Ok _ _ => false | Throw _ _ => true end.

Definition has (id : string) (p : page) : bool :=
  match document p id with Some _ => true | None => false end.

(** One activation of the toggle, as the script registers it on a page
    where the video and the control were found. *)
Definition click : M unit :=
  toggleAudio (Some "background-video") (Some "audio-toggle").

(** The label and the visual mark agree with the mute flag. *)
Definition control_consistent (p : page) : Prop :=
  exists m,
    mute_flag p = Some m /\
    label p = Some (if m then "Ton abspielen" else "Ton ausschalten") /\
    visual_active p = Some (negb m).

(** A page to run the script on: the six nodes it looks up, the toggle
    control and the video in a chosen state, nothing registered yet. *)
Definition blank : node :=
  {| textContent := ""; classList := []; muted := false |}.

Definition sample_document (btn_label : string) (btn_classes : list string)
    (video_muted : bool) : string -> option node :=
  fun id =>
    if String.eqb id "audio-toggle" then
      Some {| textContent := btn_label; classList := btn_classes;
              muted := false |}
    else if String.eqb id "background-video" then
      Some {| textContent := ""; classList := []; muted := video_muted |}
    else if String.eqb id "volume-remaining" || String.eqb id "melted-since"
            || String.eqb id "truck-count" || String.eqb id "map"
    then Some blank
    else None.

Definition sample_page (btn_label : string) (btn_classes : list string)
    (video_muted : bool) : page :=
  {| document := sample_document btn_label btn_classes video_muted;
     intervals := []; listeners := []; window_initMap := false;
     maps := []; markers := [] |}.

(** The same page with the node of [id] taken out. *)
Definition without (id : string) (p : page) : page :=
  with_document (fun i => if String.eqb i id then None else document p i) p.

(** A host whose exponent form is never asked for. *)
Definition plain_host : Host := {| Number_toString := fun _ => "" |}.

(** ** [window.initMap] *)

Definition no_options : MapOptions :=
  {| center := None; zoom := None; mapTypeId := None; tilt := None;
     heading := None; disableDefaultUI := None; styles := None |}.

Definition override {A} (new old : option A) : option A :=
  match new with Some _ => new | None => old end.

(** [setOptions] replaces the value of each key it is given. *)
Definition merge_options (o m : MapOptions) : MapOptions :=
  {| center := override (center o) (center m);
     zoom := override (zoom o) (zoom m);
     mapTypeId := override (mapTypeId o) (mapTypeId m);
     tilt := override (tilt o) (tilt m);
     heading := override (heading o) (heading m);
     disableDefaultUI := override (disableDefaultUI o) (disableDefaultUI m);
     styles := override (styles o) (styles m) |}.

Definition with_maps (ms : list GMap) (mk : list Marker) (p : page) : page :=
  {| document := document p; intervals := intervals p;
     listeners := listeners p; window_initMap := window_initMap p;
     maps := ms; markers := mk |}.

Definition new_Map (div : ref) (o : MapOptions) : M nat :=
  fun p =>
    Ok (List.length (maps p))
       (with_maps (maps p ++ [{| mapDiv := div; options := o |}]) (markers p) p).

Fixpoint update_nth {A} (n : nat) (f : A -> A) (l : list A) : list A :=
  match l, n with
  | [], _ => []
  | x :: r, O => f x :: r
  | x :: r, S n' => x :: update_nth n' f r
  end.

Definition setOptions (map : nat) (o : MapOptions) : M unit :=
  fun p =>
    Ok tt (with_maps
             (update_nth map
                (fun m => {| mapDiv := mapDiv m;
                             options := merge_options o (options m) |})
                (maps p))
             (markers p) p).

Definition new_Marker (m : Marker) : M unit :=
  fun p => Ok tt (with_maps (maps p) (markers p ++ [m]) p).

Definition matterhorn : LatLng :=
  {| lat := lit 4597631 100000; lng := lit 765827 100000 |}.

Definition rule (f e : option string) (color : string) : StyleRule :=
  {| featureType := f; elementType := e; stylers := [("color", color)] |}.

Definition darkStyle : list StyleRule :=
  [ rule None (Some "geometry") "#1e1e1e";
    rule None (Some "labels.text.fill") "#757575";
    rule None (Some "labels.text.stroke") "#1e1e1e";
    rule (Some "administrative.locality") (Some "labels.text.fill") "#d6d6d6";
    rule (Some "road") (Some "geometry") "#383838";
    rule (Some "road") (Some "geometry.stroke") "#1e1e1e";
    rule (Some "water") (Some "geometry") "#0a3148";
    rule (Some "poi.park") (Some "geometry") "#0c3b47" ].

Definition initial_options : MapOptions :=
  {| center := Some matterhorn; zoom := Some (of_Z 13);
     mapTypeId := Some "hybrid"; tilt := Some (of_Z 45);
     heading := Some (of_Z 0); disableDefaultUI := Some true;
     styles := None |}.

Definition style_options : MapOptions :=
  {| center := None; zoom := None; mapTypeId := None; tilt := None;
     heading := None; disableDefaultUI := None; styles := Some darkStyle |}.

Definition initMap : M unit :=
  div <- getElementById "map" ;;
  map <- new_Map div initial_options ;;
  setOptions map style_options ;;
  new_Marker {| position := matterhorn; marker_map := map;
                title := "Matterhorn" |}.

(** ** Further observations of the page and of strings *)

(** The string without its commas. *)
Fixpoint erase_commas (s : string) : string :=
  match s with
  | EmptyString => EmptyString
  | String c r =>
      if Ascii.eqb c "," then erase_commas r else String c (erase_commas r)
  end.

(** The last character of [String d s]. *)
Fixpoint last_of (d : ascii) (s : string) : ascii :=
  match s with
  | EmptyString => d
  | String c r => last_of c r
  end.

(** [n] activations of the toggle in a row; the first throw ends them. *)
Fixpoint clicks (n : nat) : M unit :=
  match n with
  | O => ret tt
  | S m => click ;; clicks m
  end.

(** The first clock reading at which the elapsed seconds reach
    [depletion_time]. *)
Definition depletion_clock : Z := startOfYear + 1219392000000.

(** The host fires every registered interval callback, in order of
    registration, with the clock at [now]. *)
Fixpoint run_callbacks `{Host} (now : Z) (cs : list (callback * Z)) : M unit :=
  match cs with
  | [] => ret tt
  | (c, _) :: r => run_callback now c ;; run_callbacks now r
  end.

Definition tick `{Host} (now : Z) : M unit :=
  fun p => run_callbacks now (intervals p) p.

(** One firing after the other, at the clock readings of the list. *)
Fixpoint ticks `{Host} (clock : list Z) : M unit :=
  match clock with
  | [] => ret tt
  | now :: r => tick now ;; ticks r
  end.

(** An event of [type] reaches the node of [id], as its target or on its
    way up from a node inside it: the listeners registered on that node for
    that type run, in order of registration.  The way of an event from
    node to node is not modelled. *)
Fixpoint run_listeners `{Host} (now : Z) (id type : string)
    (ls : list (string * string * callback)) : M unit :=
  match ls with
  | [] => ret tt
  | (i, t, c) :: r =>
      if String.eqb i id && String.eqb t type
      then run_callback now c ;; run_listeners now id type r
      else run_listeners now id type r
  end.

Definition dispatch `{Host} (now : Z) (id type : string) : M unit :=
  fun p => run_listeners now id type (listeners p) p.

(** * Properties *)

(** ** Rounding to binary64 *)

Local Open Scope Z_scope.

Module NumFacts.

Lemma rne_cases p q : 0 < q ->
  (rne p q = p / q /\ 2 * (p mod q) <= q) \/ (rne p q = p / q + 1 /\ q <= 2 * (p mod q)).
Proof.
  intros Hq. unfold rne, tie_even.
  destruct (Z.compare_spec (2 * (p mod q)) q) as [E|L|G].
  - destruct (Z.even (p / q)); [left|right]; split; lia.
  - left; split; lia.
  - right; split; lia.
Qed.

Lemma div_rat_mono p1 q1 p2 q2 :
  0 < q1 -> 0 < q2 -> p1 * q2 <= p2 * q1 -> p1 / q1 <= p2 / q2.
Proof.
  intros H1 H2 H.
  pose proof (Z.div_mod p1 q1 ltac:(lia)) as E1.
  pose proof (Z.mod_pos_bound p1 q1 H1) as B1.
  pose proof (Z.div_mod p2 q2 ltac:(lia)) as E2.
  pose proof (Z.mod_pos_bound p2 q2 H2) as B2.
  destruct (Z_le_gt_dec (p1 / q1) (p2 / q2)) as [|G]; [assumption|exfalso].
  assert (p2 / q2 + 1 <= p1 / q1) as G' by lia.
  assert (q1 * (p2 / q2 + 1) <= p1) by nia.
  assert (p2 < q2 * (p2 / q2 + 1)) by nia.
  nia.
Qed.

Lemma rne_mono p1 q1 p2 q2 :
  0 < q1 -> 0 < q2 -> p1 * q2 <= p2 * q1 -> rne p1 q1 <= rne p2 q2.
Proof.
  intros H1 H2 H.
  pose proof (div_rat_mono _ _ _ _ H1 H2 H) as Hf.
  pose proof (Z.div_mod p1 q1 ltac:(lia)) as E1.
  pose proof (Z.mod_pos_bound p1 q1 H1) as B1.
  pose proof (Z.div_mod p2 q2 ltac:(lia)) as E2.
  pose proof (Z.mod_pos_bound p2 q2 H2) as B2.
  destruct (Z.eq_dec (p1 / q1) (p2 / q2)) as [E|N].
  - assert ((p1 mod q1) * q2 <= (p2 mod q2) * q1) as Hr.
    { rewrite E in E1. nia. }
    unfold rne, tie_even. rewrite E.
    destruct (Z.compare_spec (2 * (p1 mod q1)) q1) as [A|A|A];
    destruct (Z.compare_spec (2 * (p2 mod q2)) q2) as [B|B|B];
    destruct (Z.even (p2 / q2)); try lia; exfalso; nia.
  - destruct (rne_cases p1 q1 H1) as [[-> _]|[-> _]];
    destruct (rne_cases p2 q2 H2) as [[-> _]|[-> _]]; lia.
Qed.

Lemma rne_int a q : 0 < q -> rne (a * q) q = a.
Proof.
  intros Hq. unfold rne, tie_even.
  rewrite Z.div_mul by lia. rewrite Z.mod_mul by lia.
  destruct (Z.compare_spec (2 * 0) q); lia.
Qed.


Lemma rne_le_int p q a : 0 < q -> p <= a * q -> rne p q <= a.
Proof.
  intros Hq H. rewrite <- (rne_int a q Hq). apply rne_mono; nia.
Qed.

Lemma rne_ge_int p q a : 0 < q -> a * q <= p -> a <= rne p q.
Proof.
  intros Hq H. rewrite <- (rne_int a q Hq). apply rne_mono; nia.
Qed.

Lemma lsb_exp_nonneg n : 0 <= lsb_exp n.
Proof. unfold lsb_exp. lia. Qed.

Lemma lsb_exp_mono n m : n <= m -> lsb_exp n <= lsb_exp m.
Proof.
  intros H. unfold lsb_exp. pose proof (Z.log2_le_mono n m H). lia.
Qed.

(** A magnitude lies under the power of two that ends its binade. *)
Lemma lsb_exp_upper n : 0 <= n -> n < 2 ^ (lsb_exp n + 53).
Proof.
  intros Hn. destruct (Z.eq_dec n 0) as [->|N].
  - apply Z.pow_pos_nonneg; unfold lsb_exp; lia.
  - destruct (Z.log2_spec n ltac:(lia)) as [_ U].
    eapply Z.lt_le_trans; [exact U|].
    apply Z.pow_le_mono_r; [lia|]. unfold lsb_exp. lia.
Qed.

Lemma lsb_exp_lower n : 0 < lsb_exp n -> 2 ^ (lsb_exp n + 52) <= n.
Proof.
  intros He. unfold lsb_exp in *.
  assert (0 < n) as Hn.
  { destruct (Z_lt_le_dec 0 n); [assumption|].
    rewrite Z.log2_nonpos in He by assumption. lia. }
  destruct (Z.log2_spec n Hn) as [L _].
  replace (Z.max 0 (Z.log2 n - 52) + 52) with (Z.log2 n) by lia. exact L.
Qed.

Lemma nearest53_upper p q : 0 <= p -> 0 < q -> nearest53 p q <= 2 ^ (lsb_exp (p / q) + 53).
Proof.
  intros Hp Hq. unfold nearest53.
  set (e := lsb_exp (p / q)).
  assert (0 <= e) as He by apply lsb_exp_nonneg.
  assert (0 < 2 ^ e) as Hpe by (apply Z.pow_pos_nonneg; lia).
  rewrite Z.pow_add_r by lia. rewrite (Z.mul_comm (2 ^ e)).
  apply Z.mul_le_mono_nonneg_r; [lia|].
  apply rne_le_int; [nia|].
  pose proof (lsb_exp_upper (p / q) (Z.div_pos p q Hp Hq)) as U.
  fold e in U. rewrite Z.pow_add_r in U by lia.
  pose proof (Z.div_mod p q ltac:(lia)) as E.
  pose proof (Z.mod_pos_bound p q Hq) as B.
  nia.
Qed.

Lemma nearest53_lower p q :
  0 < q -> 0 < lsb_exp (p / q) -> 2 ^ (lsb_exp (p / q) + 52) <= nearest53 p q.
Proof.
  intros Hq He0. unfold nearest53.
  pose proof (lsb_exp_lower _ He0) as L.
  set (e := lsb_exp (p / q)) in *.
  assert (0 < 2 ^ e) as Hpe by (apply Z.pow_pos_nonneg; lia).
  rewrite Z.pow_add_r in * by lia. rewrite (Z.mul_comm (2 ^ e)).
  apply Z.mul_le_mono_nonneg_r; [lia|].
  apply rne_ge_int; [nia|].
  pose proof (Z.div_mod p q ltac:(lia)) as E.
  pose proof (Z.mod_pos_bound p q Hq) as B.
  nia.
Qed.

(** Rounding to binary64 is monotone on the non-negative rationals. *)
Lemma nearest53_mono p1 q1 p2 q2 :
  0 <= p1 -> 0 < q1 -> 0 < q2 -> p1 * q2 <= p2 * q1 ->
  nearest53 p1 q1 <= nearest53 p2 q2.
Proof.
  intros Hp H1 H2 H.
  assert (0 <= p2) as Hp2 by nia.
  pose proof (div_rat_mono _ _ _ _ H1 H2 H) as Hn.
  pose proof (lsb_exp_mono _ _ Hn) as He.
  destruct (Z.eq_dec (lsb_exp (p1 / q1)) (lsb_exp (p2 / q2))) as [E|N].
  - unfold nearest53. rewrite E. set (e := lsb_exp (p2 / q2)).
    assert (0 < 2 ^ e) as Hpe
      by (apply Z.pow_pos_nonneg; [lia|apply lsb_exp_nonneg]).
    apply Z.mul_le_mono_nonneg_r; [lia|].
    apply rne_mono; nia.
  - pose proof (nearest53_upper p1 q1 Hp H1) as U.
    pose proof (lsb_exp_nonneg (p1 / q1)) as He1.
    assert (0 < lsb_exp (p2 / q2)) as He2 by lia.
    pose proof (nearest53_lower p2 q2 H2 He2) as L.
    eapply Z.le_trans; [exact U|]. eapply Z.le_trans; [|exact L].
    apply Z.pow_le_mono_r; lia.
Qed.

(** *** The evaluated rounding is the nearest binary64 magnitude *)

Lemma trailing_zeros_nonneg p : 0 <= trailing_zeros p.
Proof. induction p; simpl; lia. Qed.

Lemma trailing_zeros_divide p :
  Zpos p = Z.shiftr (Zpos p) (trailing_zeros p) * 2 ^ trailing_zeros p.
Proof.
  induction p as [p IH|p IH|]; try reflexivity.
  - cbn [trailing_zeros]. rewrite Z.shiftr_0_r. lia.
  - pose proof (trailing_zeros_nonneg p) as Hn.
    change (trailing_zeros p~0) with (Z.succ (trailing_zeros p)).
    set (t := trailing_zeros p) in *.
    assert (0 < 2 ^ t) by (apply Z.pow_pos_nonneg; lia).
    rewrite Z.shiftr_div_pow2 in * by lia.
    rewrite Z.pow_succ_r by lia.
    change (Z.pos p~0) with (2 * Z.pos p).
    rewrite Z.div_mul_cancel_l by lia. lia.
Qed.

Lemma ctz_nonneg z : 0 <= ctz z.
Proof. destruct z; simpl; try lia. apply trailing_zeros_nonneg. Qed.

(** Shifting out at most the trailing zeros loses nothing. *)
Lemma shiftr_exact z c :
  0 <= c <= ctz z -> z = Z.shiftr z c * 2 ^ c.
Proof.
  intros Hc. destruct z as [|p|p]; simpl in Hc.
  - rewrite Z.shiftr_0_l. reflexivity.
  - pose proof (trailing_zeros_divide p) as E.
    set (t := trailing_zeros p) in *.
    rewrite Z.shiftr_div_pow2 in * by lia.
    replace t with (c + (t - c)) in E at 2 by lia.
    rewrite Z.pow_add_r in E by lia.
    remember (Z.pos p / 2 ^ t) as a.
    assert (0 < 2 ^ c) by (apply Z.pow_pos_nonneg; lia).
    rewrite E. replace (a * (2 ^ c * 2 ^ (t - c))) with (a * 2 ^ (t - c) * 2 ^ c)
      by ring.
    rewrite Z.div_mul by lia. reflexivity.
  - assert (c = 0) as -> by lia. rewrite Z.shiftr_0_r. lia.
Qed.

Lemma rne_scale p q c : 0 < q -> 0 < c -> rne (p * c) (q * c) = rne p q.
Proof.
  intros Hq Hc. unfold rne, tie_even.
  rewrite Z.div_mul_cancel_r by lia.
  rewrite Zmult_mod_distr_r.
  destruct (Z.compare_spec (2 * (p mod q)) q);
    destruct (Z.compare_spec (2 * (p mod q * c)) (q * c)); try reflexivity;
    exfalso; nia.
Qed.

Lemma nearest53_scale p q c :
  0 < q -> 0 < c -> nearest53 (p * c) (q * c) = nearest53 p q.
Proof.
  intros Hq Hc. unfold nearest53.
  rewrite Z.div_mul_cancel_r by lia.
  set (e := lsb_exp (p / q)).
  assert (0 < 2 ^ e) by (apply Z.pow_pos_nonneg; [lia|apply lsb_exp_nonneg]).
  replace (q * c * 2 ^ e) with (q * 2 ^ e * c) by ring.
  rewrite rne_scale by nia. reflexivity.
Qed.

(** Splitting the low bits off before dividing gives the same quotient and
    the same remainder. *)
Lemma split_division p q e :
  0 <= p -> 0 < q -> 0 <= e ->
  let hi := Z.shiftr p e in
  let lo := p - Z.shiftl hi e in
  tie_even (hi / q) (2 * (Z.shiftl (hi mod q) e + lo)) (Z.shiftl q e)
  = rne p (q * 2 ^ e).
Proof.
  intros Hp Hq He hi lo. unfold rne.
  assert (0 < 2 ^ e) as Hpe by (apply Z.pow_pos_nonneg; lia).
  subst hi lo. rewrite !Z.shiftl_mul_pow2, Z.shiftr_div_pow2 by lia.
  rewrite (Z.mul_comm q (2 ^ e)).
  rewrite <- Z.div_div by lia.
  rewrite Z.rem_mul_r by lia.
  pose proof (Z.div_mod p (2 ^ e) ltac:(lia)) as E.
  f_equal. lia.
Qed.

Lemma rnd_nearest53 p q : 0 <= p -> 0 < q -> rnd p q = nearest53 p q.
Proof.
  intros Hp Hq. unfold rnd.
  set (c := Z.min (ctz p) (ctz q)).
  pose proof (ctz_nonneg p). pose proof (ctz_nonneg q).
  pose proof (shiftr_exact p c ltac:(lia)) as Ep.
  pose proof (shiftr_exact q c ltac:(lia)) as Eq.
  set (p' := Z.shiftr p c) in *. set (q' := Z.shiftr q c) in *.
  assert (0 < 2 ^ c) as Hc by (apply Z.pow_pos_nonneg; lia).
  assert (0 <= p') as Hp' by nia. assert (0 < q') as Hq' by nia.
  rewrite split_division by (try apply lsb_exp_nonneg; assumption).
  rewrite Ep, Eq at 1. rewrite nearest53_scale by assumption. reflexivity.
Qed.

Lemma rnd_mono p1 q1 p2 q2 :
  0 <= p1 -> 0 < q1 -> 0 < q2 -> p1 * q2 <= p2 * q1 -> rnd p1 q1 <= rnd p2 q2.
Proof.
  intros Hp H1 H2 H. assert (0 <= p2) by nia.
  rewrite !rnd_nearest53 by assumption. apply nearest53_mono; assumption.
Qed.

Lemma rnd_zero q : 0 < q -> rnd 0 q = 0.
Proof.
  intros Hq. rewrite rnd_nearest53 by lia.
  unfold nearest53. rewrite Z.div_0_l by lia.
  unfold lsb_exp. simpl Z.log2. simpl Z.max. rewrite Z.pow_0_r, !Z.mul_1_r.
  change 0 with (0 * q) at 1. apply rne_int. lia.
Qed.

Lemma rnd_nonneg p q : 0 <= p -> 0 < q -> 0 <= rnd p q.
Proof.
  intros Hp Hq. rewrite <- (rnd_zero q Hq). apply rnd_mono; nia.
Qed.

(** A magnitude of at least one unit never rounds to zero. *)
Lemma rnd_pos p q : 0 < q -> q <= p -> 1 <= rnd p q.
Proof.
  intros Hq H. change 1 with (rnd 1 1) at 1. apply rnd_mono; lia.
Qed.

Lemma top_pos : 0 < top.
Proof. reflexivity. Qed.

Lemma one_units_pos : 0 < one_units.
Proof. reflexivity. Qed.

#[local] Opaque top one_units.

Lemma representable_in_range a : representable a -> in_range a.
Proof. destruct a; simpl; tauto. Qed.

Lemma key_of_mag s k : 0 <= k -> key (of_mag s k) = sgn s (Z.min top k).
Proof.
  intros Hk. unfold of_mag. destruct (Z.leb_spec top k).
  - simpl. destruct s; simpl; lia.
  - simpl. unfold sval. rewrite Z2N.id by lia. destruct s; simpl; lia.
Qed.

Lemma of_mag_in_range s k : 0 <= k -> in_range (of_mag s k).
Proof.
  intros Hk. unfold of_mag. destruct (Z.leb_spec top k); simpl; [exact I|].
  rewrite Z2N.id; lia.
Qed.

Lemma of_mag_not_nan s k : is_nan (of_mag s k) = false.
Proof. unfold of_mag. destruct (top <=? k); reflexivity. Qed.

Lemma key_round s p q :
  0 <= p -> 0 < q -> key (round s p q) = sgn s (Z.min top (rnd p q)).
Proof. intros. apply key_of_mag. apply rnd_nonneg; assumption. Qed.

Lemma round_in_range s p q : 0 <= p -> 0 < q -> in_range (round s p q).
Proof. intros. apply of_mag_in_range. apply rnd_nonneg; assumption. Qed.

Lemma round_not_nan s p q : is_nan (round s p q) = false.
Proof. apply of_mag_not_nan. Qed.

Lemma in_range_key a : in_range a -> - top <= key a <= top.
Proof.
  pose proof top_pos.
  destruct a as [|[]|[] k]; simpl; unfold sval; lia.
Qed.

Lemma mul_comm a b : mul a b = mul b a.
Proof.
  destruct a as [|s|s k], b as [|s'|s' k']; simpl; try reflexivity;
    rewrite (xorb_comm s s'); try reflexivity.
  rewrite (Z.mul_comm (Z.of_N k)). reflexivity.
Qed.

Lemma mul_in_range a b : in_range (mul a b).
Proof.
  destruct a as [|s|s k], b as [|s'|s' k']; simpl; try exact I.
  - destruct (k' =? 0)%N; exact I.
  - destruct (k =? 0)%N; exact I.
  - apply round_in_range; [lia|apply one_units_pos].
Qed.

Lemma div_in_range a b : in_range (div a b).
Proof.
  pose proof top_pos. pose proof one_units_pos.
  destruct a as [|s|s k], b as [|s'|s' k']; simpl; try exact I; try lia.
  destruct (N.eqb_spec k' 0); [destruct (k =? 0)%N; exact I|].
  apply round_in_range; lia.
Qed.

Lemma add_in_range a b : in_range (add a b).
Proof.
  pose proof top_pos.
  destruct a as [|s|s k], b as [|s'|s' k']; simpl; try exact I.
  - destruct (Bool.eqb s s'); exact I.
  - destruct (_ =? 0); simpl; [lia|]. apply round_in_range; lia.
Qed.

Lemma sub_in_range a b : in_range (sub a b).
Proof. apply add_in_range. Qed.

(** *** Multiplying and dividing by a positive finite constant *)

(** A monotone map of magnitudes that fixes 0, applied under the sign and
    capped at the overflow threshold, is monotone on signed values. *)
Lemma sgn_mono (f : Z -> Z) sa sb ka kb :
  (forall x y, 0 <= x <= y -> f x <= f y) -> f 0 = 0 ->
  0 <= ka -> 0 <= kb -> sgn sa ka <= sgn sb kb ->
  sgn sa (Z.min top (f ka)) <= sgn sb (Z.min top (f kb)).
Proof.
  intros Hf H0 Ha Hb H. pose proof top_pos.
  pose proof (Hf 0 ka ltac:(lia)). pose proof (Hf 0 kb ltac:(lia)).
  unfold sgn in *. destruct sa, sb.
  - pose proof (Hf kb ka ltac:(lia)). lia.
  - lia.
  - assert (ka = 0) as -> by lia. assert (kb = 0) as -> by lia. lia.
  - pose proof (Hf ka kb ltac:(lia)). lia.
Qed.

Lemma mul_pos_mono kc a b :
  kc <> 0%N -> in_range a -> in_range b ->
  le a b -> le (mul a (Fin false kc)) (mul b (Fin false kc)).
Proof.
  intros Hkc Ra Rb (Na & Nb & H).
  pose proof top_pos as Ht. pose proof one_units_pos as Hu.
  apply N.eqb_neq in Hkc.
  destruct a as [|sa|sa ka]; [discriminate| |];
  (destruct b as [|sb|sb kb]; [discriminate| |]);
  simpl in *; rewrite ?Hkc, ?xorb_false_r;
  repeat split; try reflexivity; try apply round_not_nan; simpl.
  - exact H.
  - destruct sa; unfold sval in *; simpl in *; [|destruct sb; lia].
    rewrite key_round by lia. unfold sgn.
    pose proof (rnd_nonneg (Z.of_N kb * Z.of_N kc) one_units).
    destruct sb; lia.
  - destruct sb; unfold sval in *; simpl in *; [destruct sa; lia|].
    rewrite key_round by lia. unfold sgn.
    pose proof (rnd_nonneg (Z.of_N ka * Z.of_N kc) one_units).
    destruct sa; lia.
  - rewrite !key_round by lia.
    apply (sgn_mono (fun k => rnd (k * Z.of_N kc) one_units)); try lia.
    + intros x y Hxy. apply rnd_mono; try lia.
      repeat apply Z.mul_le_mono_nonneg_r; lia.
    + apply rnd_zero; lia.
    + exact H.
Qed.

Lemma div_pos_mono kc a b :
  kc <> 0%N -> in_range a -> in_range b ->
  le a b -> le (div a (Fin false kc)) (div b (Fin false kc)).
Proof.
  intros Hkc Ra Rb (Na & Nb & H).
  pose proof top_pos as Ht. pose proof one_units_pos as Hu.
  assert (0 < Z.of_N kc) as Hc by lia.
  apply N.eqb_neq in Hkc.
  destruct a as [|sa|sa ka]; [discriminate| |];
  (destruct b as [|sb|sb kb]; [discriminate| |]);
  simpl in *; rewrite ?Hkc, ?xorb_false_r;
  repeat split; try reflexivity; try apply round_not_nan; simpl.
  - exact H.
  - destruct sa; unfold sval in *; simpl in *; [|destruct sb; lia].
    rewrite key_round by lia. unfold sgn.
    pose proof (rnd_nonneg (Z.of_N kb * one_units) (Z.of_N kc)).
    destruct sb; lia.
  - destruct sb; unfold sval in *; simpl in *; [destruct sa; lia|].
    rewrite key_round by lia. unfold sgn.
    pose proof (rnd_nonneg (Z.of_N ka * one_units) (Z.of_N kc)).
    destruct sa; lia.
  - rewrite !key_round by lia.
    apply (sgn_mono (fun k => rnd (k * one_units) (Z.of_N kc))); try lia.
    + intros x y Hxy. apply rnd_mono; try lia.
      repeat apply Z.mul_le_mono_nonneg_r; lia.
    + apply rnd_zero; lia.
    + exact H.
Qed.

(** *** Subtracting from a finite constant *)

Lemma srnd_mono x y : x <= y -> srnd x <= srnd y.
Proof.
  intros H. unfold srnd. pose proof top_pos.
  destruct (Z.ltb_spec x 0), (Z.ltb_spec y 0).
  - pose proof (rnd_mono (- y) 1 (- x) 1). lia.
  - pose proof (rnd_nonneg (- x) 1). pose proof (rnd_nonneg y 1). lia.
  - lia.
  - pose proof (rnd_mono x 1 y 1). lia.
Qed.

Lemma key_add_fin s k s' k' :
  key (add (Fin s k) (Fin s' k')) = srnd (sval s k + sval s' k').
Proof.
  simpl. unfold srnd. set (z := sval s k + sval s' k').
  destruct (Z.eqb_spec z 0) as [E|N].
  - rewrite E. simpl. unfold sval. simpl.
    change (rnd 0 1) with 0. pose proof top_pos. destruct (s && s'); lia.
  - rewrite key_round by lia. unfold sgn.
    destruct (Z.ltb_spec z 0).
    + rewrite Z.abs_neq by lia. reflexivity.
    + rewrite Z.abs_eq by lia. reflexivity.
Qed.

Lemma add_fin_not_nan s k s' k' : is_nan (add (Fin s k) (Fin s' k')) = false.
Proof.
  simpl. destruct (_ =? 0); [reflexivity|apply round_not_nan].
Qed.

Lemma sval_neg s k : sval (negb s) k = - sval s k.
Proof. unfold sval. destruct s; simpl; lia. Qed.

Lemma sub_fin_anti sc kc a b :
  in_range a -> in_range b ->
  le a b -> le (sub (Fin sc kc) b) (sub (Fin sc kc) a).
Proof.
  intros Ra Rb (Na & Nb & H). pose proof top_pos as Ht.
  pose proof (in_range_key _ (sub_in_range (Fin sc kc) a)) as Ka.
  pose proof (in_range_key _ (sub_in_range (Fin sc kc) b)) as Kb.
  unfold sub in *.
  destruct a as [|sa|sa ka]; [discriminate| |];
  (destruct b as [|sb|sb kb]; [discriminate| |]);
  cbn [neg] in *.
  - repeat split; try reflexivity. simpl in *. destruct sa, sb; simpl; lia.
  - repeat split; try reflexivity; [apply add_fin_not_nan|].
    simpl in H, Rb. destruct sa; [|unfold sval in H; destruct sb; lia].
    simpl in *. lia.
  - repeat split; try reflexivity; [apply add_fin_not_nan|].
    simpl in H, Ra. destruct sb; [unfold sval in H; destruct sa; lia|].
    simpl in *. lia.
  - repeat split; try apply add_fin_not_nan.
    rewrite !key_add_fin, !sval_neg. apply srnd_mono. simpl in H. lia.
Qed.


(** A difference whose left operand is a positive number is never -0. *)
Lemma sub_pos_not_negzero k y : sub (Fin false k) y <> Fin true 0.
Proof.
  unfold sub. destruct y as [|s|s k']; simpl; try discriminate.
  destruct (Z.eqb_spec (Z.of_N k + sval (negb s) k') 0) as [E|N]; [discriminate|].
  unfold round, of_mag.
  set (z := Z.of_N k + sval (negb s) k') in *.
  pose proof (rnd_pos (Z.abs z) 1 ltac:(lia) ltac:(lia)) as P.
  destruct (top <=? rnd (Z.abs z) 1); [discriminate|].
  intros H. injection H as _ H. lia.
Qed.

Lemma mul_pos_not_nan kc a :
  kc <> 0%N -> is_nan a = false -> is_nan (mul a (Fin false kc)) = false.
Proof.
  intros Hkc Ha. apply N.eqb_neq in Hkc.
  destruct a; [discriminate| |]; simpl; rewrite ?Hkc;
    [reflexivity|apply round_not_nan].
Qed.

Lemma div_pos_not_nan kc a :
  kc <> 0%N -> is_nan a = false -> is_nan (div a (Fin false kc)) = false.
Proof.
  intros Hkc Ha. apply N.eqb_neq in Hkc.
  destruct a; [discriminate| |]; simpl; rewrite ?Hkc;
    [reflexivity|apply round_not_nan].
Qed.

Lemma sub_fin_not_nan s k y :
  is_nan y = false -> is_nan (sub (Fin s k) y) = false.
Proof.
  intros Hy. destruct y; [discriminate|reflexivity|apply add_fin_not_nan].
Qed.

Lemma le_refl a : is_nan a = false -> le a a.
Proof. intros H. repeat split; try assumption. lia. Qed.

Lemma le_trans a b c : le a b -> le b c -> le a c.
Proof. intros (A & B & H) (_ & C & H'). repeat split; try assumption. lia. Qed.

Lemma of_Z_mono a b : a <= b -> le (of_Z a) (of_Z b).
Proof.
  intros H. pose proof one_units_pos as Hu.
  split; [apply round_not_nan|]. split; [apply round_not_nan|].
  unfold of_Z. rewrite !key_round by lia.
  apply (sgn_mono (fun k => rnd (k * one_units) 1)); try lia.
  - intros x y Hxy. apply rnd_mono; nia.
  - apply rnd_zero; lia.
  - unfold sgn. destruct (Z.ltb_spec a 0), (Z.ltb_spec b 0); lia.
Qed.

Lemma of_Z_in_range z : in_range (of_Z z).
Proof. pose proof one_units_pos. apply round_in_range; lia. Qed.

Lemma sub_fin_mono sc kc a b :
  in_range a -> in_range b ->
  le a b -> le (sub a (Fin sc kc)) (sub b (Fin sc kc)).
Proof.
  intros Ra Rb (Na & Nb & H). pose proof top_pos as Ht.
  pose proof (in_range_key _ (sub_in_range a (Fin sc kc))) as Ka.
  pose proof (in_range_key _ (sub_in_range b (Fin sc kc))) as Kb.
  unfold sub in *. cbn [neg] in *.
  destruct a as [|sa|sa ka]; [discriminate| |];
  (destruct b as [|sb|sb kb]; [discriminate| |]).
  - split; [reflexivity|]. split; [reflexivity|]. exact H.
  - split; [reflexivity|]. split; [apply add_fin_not_nan|].
    simpl in H, Rb. destruct sa; [|unfold sval in H; destruct sb; lia].
    simpl in *. lia.
  - split; [apply add_fin_not_nan|]. split; [reflexivity|].
    simpl in H, Ra. destruct sb; [unfold sval in H; destruct sa; lia|].
    simpl in *. lia.
  - split; [apply add_fin_not_nan|]. split; [apply add_fin_not_nan|].
    rewrite !key_add_fin. apply srnd_mono. simpl in H. lia.
Qed.

(** A number caught between two finite bounds is finite and as small. *)
Lemma bounded_is_finite x lo hi B :
  le lo x -> le x hi -> - B <= key lo -> key hi <= B -> B < top ->
  exists s k, x = Fin s k /\ Z.of_N k <= B.
Proof.
  intros (_ & Nx & Hlo) (_ & _ & Hhi) Hl Hh HB.
  destruct x as [|s|s k]; [discriminate| |].
  - simpl in Hlo, Hhi. destruct s; lia.
  - exists s, k. split; [reflexivity|].
    simpl in Hlo, Hhi. unfold sval in *. destruct s; lia.
Qed.

(** The rounded magnitude is a multiple of the last kept bit and lies
    within half of it from the exact quotient. *)
Lemma nearest53_close p q :
  0 <= p -> 0 < q ->
  2 * Z.abs (nearest53 p q * q - p) <= q * 2 ^ lsb_exp (p / q).
Proof.
  intros Hp Hq. unfold nearest53. set (e := lsb_exp (p / q)).
  assert (0 < 2 ^ e) as Hpe
    by (apply Z.pow_pos_nonneg; [lia|apply lsb_exp_nonneg]).
  set (Q := q * 2 ^ e). assert (0 < Q) as HQ by (subst Q; nia).
  replace (rne p Q * 2 ^ e * q) with (rne p Q * Q) by (subst Q; ring).
  pose proof (Z.div_mod p Q ltac:(lia)) as E.
  pose proof (Z.mod_pos_bound p Q HQ) as B.
  destruct (rne_cases p Q HQ) as [[-> H]|[-> H]]; lia.
Qed.

Lemma nearest53_grid p q : nearest53 p q mod 2 ^ lsb_exp (p / q) = 0.
Proof.
  unfold nearest53. apply Z.mod_mul. apply Z.pow_nonzero; [lia|].
  apply lsb_exp_nonneg.
Qed.

(** *** The operators stay inside binary64 *)

Lemma pow2_divide a b : 0 <= a <= b -> (2 ^ b) mod (2 ^ a) = 0.
Proof.
  intros H. replace b with ((b - a) + a) by lia.
  rewrite Z.pow_add_r by lia. apply Z.mod_mul.
  apply Z.pow_nonzero; lia.
Qed.

Lemma nearest53_representable p q :
  0 <= p -> 0 < q ->
  nearest53 p q mod 2 ^ lsb_exp (nearest53 p q) = 0.
Proof.
  intros Hp Hq.
  pose proof (nearest53_upper p q Hp Hq) as U.
  unfold nearest53 in *. set (e := lsb_exp (p / q)) in *.
  assert (0 <= e) as He by apply lsb_exp_nonneg.
  assert (0 < 2 ^ e) as Hpe by (apply Z.pow_pos_nonneg; lia).
  set (m := rne p (q * 2 ^ e)) in *.
  assert (0 <= m) as Hm.
  { subst m. apply rne_ge_int; nia. }
  set (r := m * 2 ^ e) in *.
  destruct (Z.eq_dec r (2 ^ (e + 53))) as [E|N].
  - rewrite E. apply pow2_divide. split; [apply lsb_exp_nonneg|].
    unfold lsb_exp. rewrite Z.log2_pow2 by lia. lia.
  - assert (lsb_exp r <= e) as Hl.
    { unfold lsb_exp. destruct (Z_le_gt_dec r 0) as [Hr|Hr].
      - rewrite Z.log2_nonpos by assumption. lia.
      - assert (Z.log2 r < e + 53); [|lia].
        apply Z.log2_lt_pow2; lia. }
    pose proof (lsb_exp_nonneg r) as Hl0.
    subst r. replace e with ((e - lsb_exp (m * 2 ^ e)) + lsb_exp (m * 2 ^ e)) at 1
      by lia.
    rewrite Z.pow_add_r by lia. rewrite Z.mul_assoc. apply Z.mod_mul.
    apply Z.pow_nonzero; lia.
Qed.

Lemma round_representable s p q :
  0 <= p -> 0 < q -> representable (round s p q).
Proof.
  intros Hp Hq. unfold round, of_mag.
  pose proof (rnd_nonneg p q Hp Hq) as Hn.
  destruct (Z.leb_spec top (rnd p q)); [exact I|].
  simpl. rewrite Z2N.id by assumption. split; [assumption|].
  rewrite rnd_nearest53 by assumption.
  apply nearest53_representable; assumption.
Qed.

Lemma zero_representable s : representable (Fin s 0).
Proof. split; [apply top_pos|reflexivity]. Qed.

Lemma mul_representable a b : representable (mul a b).
Proof.
  destruct a as [|s|s k], b as [|s'|s' k']; simpl; try exact I.
  - destruct (k' =? 0)%N; exact I.
  - destruct (k =? 0)%N; exact I.
  - apply round_representable; [lia|apply one_units_pos].
Qed.

Lemma div_representable a b : representable (div a b).
Proof.
  pose proof one_units_pos.
  destruct a as [|s|s k], b as [|s'|s' k']; try exact I.
  - apply zero_representable.
  - unfold div. destruct (N.eqb_spec k' 0); [destruct (k =? 0)%N; exact I|].
    apply round_representable; lia.
Qed.

Lemma add_representable a b : representable (add a b).
Proof.
  destruct a as [|s|s k], b as [|s'|s' k']; try exact I.
  - simpl. destruct (Bool.eqb s s'); exact I.
  - unfold add. destruct (_ =? 0); [apply zero_representable|].
    apply round_representable; lia.
Qed.

Lemma sub_representable a b : representable (sub a b).
Proof. apply add_representable. Qed.

Lemma of_Z_representable z : representable (of_Z z).
Proof.
  pose proof one_units_pos. apply round_representable; lia.
Qed.

End NumFacts.

Import NumFacts.

Lemma SECONDS_PER_YEAR_fin :
  exists k, SECONDS_PER_YEAR = Fin false k /\ k <> 0%N.
Proof. eexists. split; [vm_compute; reflexivity|discriminate]. Qed.

Lemma YEARLY_MELT_KM3_fin :
  exists k, YEARLY_MELT_KM3 = Fin false k /\ k <> 0%N.
Proof. eexists. split; [vm_compute; reflexivity|discriminate]. Qed.

Lemma START_VOLUME_KM3_fin :
  exists k, START_VOLUME_KM3 = Fin false k /\ k <> 0%N.
Proof. eexists. split; [vm_compute; reflexivity|discriminate]. Qed.

#[local] Opaque START_VOLUME_KM3 YEARLY_MELT_KM3 SECONDS_PER_YEAR.

Lemma clamp_is_max k y :
  let r := sub (Fin false k) y in
  (if ltb r zero then zero else r) = max zero r.
Proof.
  intros r. pose proof (sub_pos_not_negzero k y) as Hz. fold r in Hz.
  pose proof top_pos as Ht.
  destruct r as [|[]|[] [|p]]; try congruence; try reflexivity;
    unfold ltb, max; simpl;
    repeat match goal with
           | |- context [?a <? ?b] => destruct (Z.ltb_spec a b)
           end; try reflexivity; lia.
Qed.

Lemma remaining_is_spec t : remainingKm3 t = remaining_spec t.
Proof.
  unfold remainingKm3, remaining_spec.
  destruct START_VOLUME_KM3_fin as (k & -> & _). apply clamp_is_max.
Qed.

Lemma clamp_mono a b :
  le a b ->
  le (if ltb a zero then zero else a) (if ltb b zero then zero else b).
Proof.
  intros (Na & Nb & H). unfold ltb. rewrite Na, Nb. simpl.
  destruct (Z.ltb_spec (key a) 0), (Z.ltb_spec (key b) 0);
    repeat split; simpl; try assumption; try reflexivity; lia.
Qed.

Lemma remaining_antitone t1 t2 :
  in_range t1 -> in_range t2 -> le t1 t2 ->
  le (remainingKm3 t2) (remainingKm3 t1).
Proof.
  intros R1 R2 H. unfold remainingKm3.
  destruct START_VOLUME_KM3_fin as (ks & -> & _).
  destruct YEARLY_MELT_KM3_fin as (ky & -> & Hy).
  destruct SECONDS_PER_YEAR_fin as (kp & -> & Hp).
  apply clamp_mono. apply sub_fin_anti; try apply mul_in_range.
  rewrite !(mul_comm (Fin false ky)).
  apply mul_pos_mono; try assumption; try apply div_in_range.
  apply div_pos_mono; assumption.
Qed.

Lemma remaining_not_nan t : is_nan t = false -> is_nan (remainingKm3 t) = false.
Proof.
  intros Ht. unfold remainingKm3.
  destruct START_VOLUME_KM3_fin as (ks & -> & _).
  destruct YEARLY_MELT_KM3_fin as (ky & -> & Hy).
  destruct SECONDS_PER_YEAR_fin as (kp & -> & Hp).
  match goal with |- context [ltb ?r zero] => assert (is_nan r = false) as Nr end.
  { apply sub_fin_not_nan. rewrite mul_comm. apply mul_pos_not_nan; [assumption|].
    apply div_pos_not_nan; assumption. }
  destruct (ltb _ zero); [reflexivity|exact Nr].
Qed.

Lemma remaining_nonneg t : is_nan t = false -> le zero (remainingKm3 t).
Proof.
  intros Ht. pose proof (remaining_not_nan t Ht) as Hn.
  unfold le. split; [reflexivity|]. split; [assumption|].
  revert Hn. unfold remainingKm3.
  set (r := (START_VOLUME_KM3 - YEARLY_MELT_KM3 * (t / SECONDS_PER_YEAR))%num).
  clearbody r. unfold le. unfold ltb.
  destruct (is_nan r) eqn:Nr; cbn [negb andb];
    [intros Hn; rewrite Nr in Hn; discriminate|].
  intros _. change (key zero) with 0.
  destruct (Z.ltb_spec (key r) 0); [reflexivity|assumption].
Qed.

(** The stored zero of the clamp is +0, and an unclamped zero is +0 too. *)
Lemma remaining_zero_key t : key (remainingKm3 t) = 0 -> is_nan t = false ->
  remainingKm3 t = zero.
Proof.
  intros Hk Ht. pose proof (remaining_not_nan t Ht) as Hn.
  revert Hk Hn. unfold remainingKm3.
  destruct START_VOLUME_KM3_fin as (ks & -> & _).
  match goal with |- context [ltb ?r zero] =>
    pose proof (sub_pos_not_negzero ks (YEARLY_MELT_KM3 * (t / SECONDS_PER_YEAR))%num) as Hz;
    set (x := r) in * end.
  clearbody x. destruct (ltb x zero); [reflexivity|].
  pose proof top_pos.
  destruct x as [|[]|[] k]; simpl; unfold sval; intros; try discriminate; try lia.
  - assert (k = 0%N) as -> by lia. congruence.
  - assert (k = 0%N) as -> by lia. reflexivity.
Qed.

Lemma depletion_time_value : depletion_time = of_Z 1219392000.
Proof. vm_compute. reflexivity. Qed.

Lemma remaining_at_depletion : remainingKm3 depletion_time = zero.
Proof. vm_compute. reflexivity. Qed.

Lemma depletion_time_in_range : in_range depletion_time.
Proof. apply div_in_range. Qed.

Lemma remaining_after_depletion t :
  in_range t -> le depletion_time t -> remainingKm3 t = zero.
Proof.
  intros R H. pose proof H as (_ & Nt & _).
  pose proof (remaining_antitone _ _ depletion_time_in_range R H) as A.
  rewrite remaining_at_depletion in A.
  pose proof (remaining_nonneg t Nt) as B.
  apply remaining_zero_key; [|assumption].
  destruct A as (_ & _ & A), B as (_ & _ & B). simpl in A, B. lia.
Qed.

(** ** The counters *)

Ltac num_decide :=
  vm_compute; repeat split; try reflexivity; try (intro; discriminate).

(** C1: for every elapsed time t >= 0 the remaining volume is the maximum of
    0 and start - yearly * (t / secondsPerYear); it does not increase with
    t, is exactly 0 at t = secondsPerYear * start / yearly and stays 0 for
    every later t. *)
Theorem remaining_volume_law (t1 t2 : number) :
  representable t1 -> representable t2 -> le zero t1 -> le t1 t2 ->
  remainingKm3 t1 = remaining_spec t1 /\
  le (remainingKm3 t2) (remainingKm3 t1) /\
  (depletion_time = of_Z 1219392000 /\ remainingKm3 depletion_time = zero) /\
  (le depletion_time t1 -> remainingKm3 t1 = zero).
Proof.
  intros R1 R2 H0 H12.
  apply representable_in_range in R1. apply representable_in_range in R2.
  split; [apply remaining_is_spec|].
  split; [apply remaining_antitone; assumption|].
  split; [split; [apply depletion_time_value|apply remaining_at_depletion]|].
  apply remaining_after_depletion; assumption.
Qed.

Lemma remaining_volume_law_witness :
  representable (of_Z 1219392000) /\ representable (of_Z 1300000000) /\
  le zero (of_Z 1219392000) /\ le (of_Z 1219392000) (of_Z 1300000000) /\
  remainingKm3 (of_Z 1219392000) = remaining_spec (of_Z 1219392000) /\
  le (remainingKm3 (of_Z 1300000000)) (remainingKm3 (of_Z 1219392000)) /\
  (depletion_time = of_Z 1219392000 /\ remainingKm3 depletion_time = zero) /\
  remainingKm3 (of_Z 1219392000) = zero.
Proof.
  assert (representable (of_Z 1219392000)) as R1 by num_decide.
  assert (representable (of_Z 1300000000)) as R2 by num_decide.
  assert (le zero (of_Z 1219392000)) as H0 by num_decide.
  assert (le (of_Z 1219392000) (of_Z 1300000000)) as H12 by num_decide.
  destruct (remaining_volume_law _ _ R1 R2 H0 H12) as (A & B & C & D).
  assert (le depletion_time (of_Z 1219392000)) as H by num_decide.
  exact (conj R1 (conj R2 (conj H0 (conj H12
           (conj A (conj B (conj C (D H)))))))).
Defined.

Lemma mul_neg_l a b : mul (neg a) b = neg (mul a b).
Proof.
  destruct a as [|s|s k], b as [|s'|s' k']; simpl; try reflexivity.
  - destruct s, s'; reflexivity.
  - destruct (k' =? 0)%N; [reflexivity|]. destruct s, s'; reflexivity.
  - destruct (k =? 0)%N; [reflexivity|]. destruct s, s'; reflexivity.
  - unfold round, of_mag. destruct (top <=? _); destruct s, s'; reflexivity.
Qed.

Lemma mul_pos_zero kc : mul zero (Fin false kc) = zero.
Proof.
  unfold zero, mul, round. change (Z.of_N 0 * Z.of_N kc) with 0.
  rewrite rnd_zero by apply one_units_pos. reflexivity.
Qed.

Lemma mul_pos_nonneg kc a :
  kc <> 0%N -> in_range a -> le zero a -> le zero (mul a (Fin false kc)).
Proof.
  intros Hkc Ra H. rewrite <- (mul_pos_zero kc) at 1.
  apply mul_pos_mono; try assumption. simpl. apply top_pos.
Qed.

(** A factor of at least 1 keeps a negative number negative: the product
    cannot underflow to -0. *)
Lemma mul_ge1_neg kc a :
  one_units <= Z.of_N kc -> lt a zero -> lt (mul a (Fin false kc)) zero.
Proof.
  intros Hkc (Na & _ & H). pose proof top_pos as Ht.
  pose proof one_units_pos as Hu.
  assert ((kc =? 0)%N = false) as Hz by (apply N.eqb_neq; lia).
  destruct a as [|s|s k]; [discriminate| |]; simpl in H |- *.
  - rewrite Hz. destruct s; [|lia].
    split; [reflexivity|]. split; [reflexivity|]. simpl. lia.
  - unfold sval in H. destruct s; [|lia].
    split; [apply round_not_nan|]. split; [reflexivity|].
    rewrite key_round by lia. simpl.
    assert (1 <= rnd (Z.of_N k * Z.of_N kc) one_units)
      by (apply rnd_pos; nia).
    lia.
Qed.

Lemma MELT_RATE_M3_PER_SEC_fin :
  exists k, MELT_RATE_M3_PER_SEC = Fin false k /\ one_units <= Z.of_N k.
Proof.
  eexists. split; [vm_compute; reflexivity|].
  apply Z.leb_le. vm_compute. reflexivity.
Qed.

Lemma TRUCK_RATE_PER_SEC_fin :
  exists k, TRUCK_RATE_PER_SEC = Fin false k /\ one_units <= Z.of_N k.
Proof.
  eexists. split; [vm_compute; reflexivity|].
  apply Z.leb_le. vm_compute. reflexivity.
Qed.

#[local] Opaque MELT_RATE_M3_PER_SEC MELT_RATE_L_PER_SEC TRUCK_RATE_PER_SEC.

Lemma rate_nonzero k : one_units <= Z.of_N k -> k <> 0%N.
Proof. pose proof one_units_pos. lia. Qed.

(** The product is not the exact real product, and it is not additive:
    7 seconds and 3 seconds do not add up to 10 seconds. *)
Lemma melted_volume_not_exact_product :
  key (meltedM3 (of_Z 7)) * one_units
    <> key (of_Z 7) * key MELT_RATE_M3_PER_SEC /\
  (meltedM3 (of_Z 7) + meltedM3 (of_Z 3))%num <> meltedM3 (of_Z 10).
Proof.
  split.
  - intros E. apply Z.eqb_eq in E. vm_compute in E. discriminate E.
  - intros E. vm_compute in E. discriminate E.
Qed.

(** C2, amended: for every elapsed time t, of either sign, the melted volume
    is the binary64 product t * meltRateVolumePerSec: the exact product
    rounded to the nearest binary64 value, at most half a unit in the last
    place away from it, and infinite when that overflows; it is 0 at
    t = 0 and at the epoch itself, and it changes sign with t. *)
Theorem melted_volume_rounded_product (s : bool) (k : N) :
  let p := Z.of_N k * key MELT_RATE_M3_PER_SEC in
  let e := lsb_exp (p / one_units) in
  let m := rnd p one_units in
  meltedM3 (Fin s k) = of_mag s m /\
  2 * Z.abs (m * one_units - p) <= one_units * 2 ^ e /\
  m mod 2 ^ e = 0 /\
  (forall s', meltedM3 (Inf s') = Inf s') /\
  meltedM3 NaN = NaN /\
  meltedM3 (of_Z 0) = of_Z 0 /\
  meltedM3 (secondsSinceStart startOfYear) = of_Z 0 /\
  (forall t, meltedM3 (neg t) = neg (meltedM3 t)).
Proof.
  intros p e m. subst p e m. unfold meltedM3.
  destruct MELT_RATE_M3_PER_SEC_fin as (kr & Er & Hr). rewrite Er.
  pose proof one_units_pos as Hu. pose proof (rate_nonzero kr Hr) as Nr.
  cbn [key sval].
  assert (0 <= Z.of_N k * Z.of_N kr) as Hp by lia.
  split.
  { cbn [mul]. rewrite xorb_false_r. reflexivity. }
  rewrite rnd_nearest53 by assumption.
  split; [apply nearest53_close; assumption|].
  split; [apply nearest53_grid|].
  split.
  { intros s'. cbn [mul].
    replace (kr =? 0)%N with false by (symmetry; apply N.eqb_neq; exact Nr).
    rewrite xorb_false_r. reflexivity. }
  split; [reflexivity|].
  rewrite <- Er.
  split; [vm_compute; reflexivity|].
  split; [vm_compute; reflexivity|].
  intros t. apply mul_neg_l.
Qed.

(** C5: for t >= 0 the melted volume and the truck count are non-negative
    and do not decrease with t; for t < 0 both are negative, with no clamp
    at zero. *)
Theorem melted_and_trucks_follow_time (t1 t2 t3 : number) :
  representable t1 -> representable t2 ->
  le zero t1 -> le t1 t2 -> lt t3 zero ->
  (le zero (meltedM3 t1) /\ le zero (trucks t1)) /\
  (le (meltedM3 t1) (meltedM3 t2) /\ le (trucks t1) (trucks t2)) /\
  (lt (meltedM3 t3) zero /\ lt (trucks t3) zero).
Proof.
  intros R1 R2 H0 H12 H3.
  apply representable_in_range in R1. apply representable_in_range in R2.
  unfold meltedM3, trucks.
  destruct MELT_RATE_M3_PER_SEC_fin as (km & -> & Hm).
  destruct TRUCK_RATE_PER_SEC_fin as (kt & -> & Ht).
  pose proof (rate_nonzero _ Hm). pose proof (rate_nonzero _ Ht).
  split; [split; apply mul_pos_nonneg; assumption|].
  split; [split; apply mul_pos_mono; assumption|].
  split; apply mul_ge1_neg; assumption.
Qed.

Lemma melted_and_trucks_follow_time_witness :
  representable (of_Z 60) /\ representable (of_Z 3600) /\
  le zero (of_Z 60) /\ le (of_Z 60) (of_Z 3600) /\
  lt (secondsSinceStart (startOfYear - 1)) zero /\
  (le zero (meltedM3 (of_Z 60)) /\ le zero (trucks (of_Z 60))) /\
  (le (meltedM3 (of_Z 60)) (meltedM3 (of_Z 3600)) /\
   le (trucks (of_Z 60)) (trucks (of_Z 3600))) /\
  (lt (meltedM3 (secondsSinceStart (startOfYear - 1))) zero /\
   lt (trucks (secondsSinceStart (startOfYear - 1))) zero).
Proof.
  assert (representable (of_Z 60)) as R1 by num_decide.
  assert (representable (of_Z 3600)) as R2 by num_decide.
  assert (le zero (of_Z 60)) as H0 by num_decide.
  assert (le (of_Z 60) (of_Z 3600)) as H12 by num_decide.
  assert (lt (secondsSinceStart (startOfYear - 1)) zero) as H3 by num_decide.
  exact (conj R1 (conj R2 (conj H0 (conj H12 (conj H3
           (melted_and_trucks_follow_time _ _ _ R1 R2 H0 H12 H3)))))).
Defined.

(** ** Agreement with the Standard Library's binary64 *)

Lemma constants_agree_with_reference :
  to_spec START_VOLUME_KM3 = Reference.start_volume /\
  to_spec YEARLY_MELT_KM3 = Reference.yearly_melt /\
  to_spec SECONDS_PER_YEAR = Reference.seconds_per_year /\
  to_spec MELT_RATE_M3_PER_SEC = Reference.melt_rate /\
  to_spec TRUCK_RATE_PER_SEC = Reference.truck_rate.
Proof.
  split; [vm_compute; reflexivity|]. split; [vm_compute; reflexivity|].
  split; [vm_compute; reflexivity|]. split; vm_compute; reflexivity.
Qed.

Lemma counters_agree_with_reference :
  to_spec (remainingKm3 SECONDS_PER_YEAR)
    = Reference.remaining_unclamped Reference.seconds_per_year /\
  to_spec (meltedM3 SECONDS_PER_YEAR)
    = Reference.fmul Reference.seconds_per_year Reference.melt_rate /\
  to_spec (trucks SECONDS_PER_YEAR)
    = Reference.fmul Reference.seconds_per_year Reference.truck_rate /\
  to_spec (secondsSinceStart (startOfYear - 1))
    = Reference.seconds_since_start (startOfYear - 1) /\
  to_spec (meltedM3 (secondsSinceStart (startOfYear - 1)))
    = Reference.fmul (Reference.seconds_since_start (startOfYear - 1))
        Reference.melt_rate /\
  to_spec (secondsSinceStart 1762100000123)
    = Reference.seconds_since_start 1762100000123 /\
  to_spec (remainingKm3 (secondsSinceStart 1762100000123))
    = Reference.remaining_unclamped
        (Reference.seconds_since_start 1762100000123) /\
  to_spec (trucks (secondsSinceStart 1762100000123))
    = Reference.fmul (Reference.seconds_since_start 1762100000123)
        Reference.truck_rate.
Proof.
  split; [vm_compute; reflexivity|]. split; [vm_compute; reflexivity|].
  split; [vm_compute; reflexivity|]. split; [vm_compute; reflexivity|].
  split; [vm_compute; reflexivity|]. split; [vm_compute; reflexivity|].
  split; vm_compute; reflexivity.
Qed.

(** ** The counters over the range of the clock *)

Lemma startOfYear_fin : exists k, of_Z startOfYear = Fin false k.
Proof. eexists. vm_compute. reflexivity. Qed.

Lemma thousand_fin : exists k, of_Z 1000 = Fin false k /\ k <> 0%N.
Proof. eexists. split; [vm_compute; reflexivity|discriminate]. Qed.

Lemma secondsSinceStart_in_range now : in_range (secondsSinceStart now).
Proof. apply div_in_range. Qed.

Lemma secondsSinceStart_mono a b :
  a <= b -> le (secondsSinceStart a) (secondsSinceStart b).
Proof.
  intros H. unfold secondsSinceStart.
  destruct startOfYear_fin as (ks & ->).
  destruct thousand_fin as (kt & -> & Hk).
  apply div_pos_mono; [assumption|apply sub_in_range|apply sub_in_range|].
  apply sub_fin_mono; [apply of_Z_in_range|apply of_Z_in_range|].
  apply of_Z_mono, H.
Qed.

Lemma meltedM3_mono a b :
  in_range a -> in_range b -> le a b -> le (meltedM3 a) (meltedM3 b).
Proof.
  intros Ra Rb H. unfold meltedM3.
  destruct MELT_RATE_M3_PER_SEC_fin as (km & -> & Hm).
  apply mul_pos_mono; try assumption. apply rate_nonzero, Hm.
Qed.

Lemma trucks_mono a b :
  in_range a -> in_range b -> le a b -> le (trucks a) (trucks b).
Proof.
  intros Ra Rb H. unfold trucks.
  destruct TRUCK_RATE_PER_SEC_fin as (km & -> & Hm).
  apply mul_pos_mono; try assumption. apply rate_nonzero, Hm.
Qed.

(** The remaining volume is a non-negative number with a plus sign. *)
Lemma remaining_sign t s k :
  is_nan t = false -> remainingKm3 t = Fin s k -> s = false.
Proof.
  intros Ht E. destruct s; [|reflexivity].
  pose proof (remaining_nonneg t Ht) as (_ & _ & H).
  rewrite E in H. change (key zero) with 0 in H. simpl in H.
  assert (k = 0%N) as -> by lia.
  pose proof (remaining_zero_key t) as Z0. rewrite E in Z0.
  specialize (Z0 eq_refl Ht). discriminate Z0.
Qed.

(** At every time value a Date can hold, the three values are finite and
    far below 10^21, where [toFixed] leaves the fixed notation. *)
Lemma clock_values_fixed now :
  valid_time now ->
  let t := secondsSinceStart now in
  (exists k, remainingKm3 t = Fin false k /\ Z.of_N k < 10 ^ 21 * one_units) /\
  (exists s k, meltedM3 t = Fin s k /\ Z.of_N k < 10 ^ 21 * one_units) /\
  (exists s k, trucks t = Fin s k /\ Z.of_N k < 10 ^ 21 * one_units).
Proof.
  intros (Hlo & Hhi) t.
  pose proof (secondsSinceStart_mono _ _ Hlo) as Tlo.
  pose proof (secondsSinceStart_mono _ _ Hhi) as Thi.
  fold t in Tlo, Thi.
  pose proof (secondsSinceStart_in_range now) as Rt. fold t in Rt.
  pose proof (secondsSinceStart_in_range (- max_time)) as Rlo.
  pose proof (secondsSinceStart_in_range max_time) as Rhi.
  assert (10 ^ 15 * one_units < top) as Btop
    by (apply Z.ltb_lt; vm_compute; reflexivity).
  assert (10 ^ 15 * one_units < 10 ^ 21 * one_units) as Bexp
    by (apply Z.ltb_lt; vm_compute; reflexivity).
  assert (is_nan t = false) as Nt by (destruct Tlo as (_ & N & _); exact N).
  split; [|split].
  - pose proof (remaining_antitone _ _ Rlo Rt Tlo) as A.
    pose proof (remaining_nonneg t Nt) as B.
    destruct (bounded_is_finite _ _ _ (10 ^ 15 * one_units) B A)
      as (s & k & E & Hk); try assumption.
    + apply Z.leb_le. vm_compute. reflexivity.
    + apply Z.leb_le. vm_compute. reflexivity.
    + pose proof (remaining_sign t s k Nt E) as ->.
      exists k. split; [exact E|lia].
  - pose proof (meltedM3_mono _ _ Rlo Rt Tlo) as A.
    pose proof (meltedM3_mono _ _ Rt Rhi Thi) as B.
    destruct (bounded_is_finite _ _ _ (10 ^ 15 * one_units) A B)
      as (s & k & E & Hk); try assumption.
    + apply Z.leb_le. vm_compute. reflexivity.
    + apply Z.leb_le. vm_compute. reflexivity.
    + exists s, k. split; [exact E|lia].
  - pose proof (trucks_mono _ _ Rlo Rt Tlo) as A.
    pose proof (trucks_mono _ _ Rt Rhi Thi) as B.
    destruct (bounded_is_finite _ _ _ (10 ^ 15 * one_units) A B)
      as (s & k & E & Hk); try assumption.
    + apply Z.leb_le. vm_compute. reflexivity.
    + apply Z.leb_le. vm_compute. reflexivity.
    + exists s, k. split; [exact E|lia].
Qed.

(** ** What a counter update writes *)

Lemma updateCounters_shows `{Host} now p nv nm nt :
  document p "volume-remaining" = Some nv ->
  document p "melted-since" = Some nm ->
  document p "truck-count" = Some nt ->
  exists p',
    updateCounters now (Some "volume-remaining") (Some "melted-since")
      (Some "truck-count") p = Ok tt p' /\
    shown "volume-remaining" p'
      = Some (toFixed 2 (remainingKm3 (secondsSinceStart now))) /\
    shown "melted-since" p'
      = Some (formatNumber (toFixed 0 (meltedM3 (secondsSinceStart now)))) /\
    shown "truck-count" p'
      = Some (formatNumber (toFixed 0 (trucks (secondsSinceStart now)))) /\
    intervals p' = intervals p /\ listeners p' = listeners p /\
    window_initMap p' = window_initMap p.
Proof.
  intros Hv Hm Ht. unfold updateCounters.
  generalize (toFixed 2 (remainingKm3 (secondsSinceStart now))).
  generalize (formatNumber (toFixed 0 (meltedM3 (secondsSinceStart now)))).
  generalize (formatNumber (toFixed 0 (trucks (secondsSinceStart now)))).
  intros s3 s2 s1. eexists. split; [reflexivity|].
  unfold shown, with_document, update_node. cbn.
  rewrite Hv, Hm, Ht. cbn. repeat split; reflexivity.
Qed.

(** ** Strings *)

Module StringFacts.

Lemma length_list_ascii s :
  List.length (list_ascii_of_string s) = String.length s.
Proof. induction s as [|c s IH]; simpl; congruence. Qed.

Lemma string_of_list_ascii_app l1 l2 :
  string_of_list_ascii (l1 ++ l2)%list
  = (string_of_list_ascii l1 ++ string_of_list_ascii l2)%string.
Proof. induction l1 as [|c l IH]; simpl; congruence. Qed.

Lemma length_append s1 s2 :
  String.length (s1 ++ s2) = (String.length s1 + String.length s2)%nat.
Proof. induction s1 as [|c s IH]; simpl; congruence. Qed.

Lemma append_empty_r s : (s ++ "")%string = s.
Proof. induction s as [|c s IH]; simpl; congruence. Qed.

Lemma append_assoc s1 s2 s3 :
  ((s1 ++ s2) ++ s3)%string = (s1 ++ (s2 ++ s3))%string.
Proof. induction s1 as [|c s IH]; simpl; congruence. Qed.

Lemma all_digits_append s1 s2 :
  all_digits (s1 ++ s2) = all_digits s1 && all_digits s2.
Proof.
  induction s1 as [|c s IH]; simpl; [reflexivity|].
  rewrite IH. apply andb_assoc.
Qed.

Lemma is_digit_word c : is_digit c = true -> is_word c = true.
Proof. intros H. unfold is_word. rewrite H. reflexivity. Qed.

Lemma sep_before_S3 n :
  sep_before (S (S (S n))) = (n =? 0)%nat || sep_before n.
Proof.
  unfold sep_before. replace (S (S (S n))) with (n + 1 * 3)%nat by lia.
  rewrite Nat.Div0.mod_add.
  destruct n as [|n]; [reflexivity|].
  replace (0 <? S n + 1 * 3)%nat with true by (symmetry; apply Nat.ltb_lt; lia).
  reflexivity.
Qed.

(** Strings are handled three characters at a time. *)
Lemma string_ind3 (P : string -> Prop) :
  P "" -> (forall a, P (String a "")) -> (forall a b, P (String a (String b ""))) ->
  (forall a b c r, P r -> P (String a (String b (String c r)))) ->
  forall s, P s.
Proof.
  intros H0 H1 H2 H3.
  assert (forall s, P s /\ (forall a, P (String a s))
                    /\ (forall a b, P (String a (String b s)))) as H.
  { induction s as [|c r (IH0 & IH1 & IH2)].
    - repeat split; auto.
    - repeat split; auto. }
  intros s. apply H.
Qed.

Lemma list_ind3 {A} (P : list A -> Prop) :
  P [] -> (forall a, P [a]) -> (forall a b, P [a; b]) ->
  (forall a b c r, P r -> P (a :: b :: c :: r)) ->
  forall l, P l.
Proof.
  intros H0 H1 H2 H3.
  assert (forall l, P l /\ (forall a, P (a :: l))
                    /\ (forall a b, P (a :: b :: l))) as H.
  { induction l as [|c r (IH0 & IH1 & IH2)].
    - repeat split; auto.
    - repeat split; auto. }
  intros l. apply H.
Qed.

(** On a run of digits the lookahead succeeds exactly in front of a
    positive multiple of 3 of them. *)
Lemma digit_groups_digits s :
  all_digits s = true -> digit_groups s = sep_before (String.length s).
Proof.
  induction s as [| a | a b | a b c r IH] using string_ind3; try reflexivity.
  intros H. cbn [all_digits] in H.
  apply andb_prop in H as (Ha & H). apply andb_prop in H as (Hb & H).
  apply andb_prop in H as (Hc & Hr).
  cbn [digit_groups String.length]. rewrite Ha, Hb, Hc, sep_before_S3.
  cbn [andb]. rewrite (IH Hr).
  destruct r as [|d r']; [reflexivity|].
  cbn [all_digits] in Hr. apply andb_prop in Hr as (Hd & _).
  cbn [head_is_digit String.length]. rewrite Hd. reflexivity.
Qed.

Lemma every3_snoc l x :
  every3 (l ++ [x])%list
  = (every3 l ++ (if sep_before (List.length l) then [","%char; x] else [x]))%list.
Proof.
  induction l as [| a | a b | a b c r IH] using list_ind3; try reflexivity.
  cbn [List.length]. rewrite sep_before_S3.
  destruct r as [|d r']; [reflexivity|].
  change (every3 ((a :: b :: c :: d :: r') ++ [x])%list)
    with (a :: b :: c :: ","%char :: every3 ((d :: r') ++ [x])%list).
  rewrite IH. reflexivity.
Qed.

Lemma grouped_cons c l :
  grouped (c :: l)
  = c :: ((if sep_before (List.length l) then [","%char] else [])
          ++ grouped l)%list.
Proof.
  unfold grouped. cbn [rev]. rewrite every3_snoc, rev_app_distr, length_rev.
  destruct (sep_before (List.length l)); reflexivity.
Qed.

Lemma insert_seps_after_digit d s :
  is_digit d = true -> all_digits s = true ->
  list_ascii_of_string (insert_seps (Some d) s)
  = ((if sep_before (String.length s) then [","%char] else [])
     ++ grouped (list_ascii_of_string s))%list.
Proof.
  revert d. induction s as [|a r IH]; intros d Hd Hs.
  { cbn [insert_seps digit_groups]. rewrite andb_false_r. reflexivity. }
  pose proof (digit_groups_digits _ Hs) as Hg.
  cbn [all_digits] in Hs. apply andb_prop in Hs as (Ha & Hr).
  cbn [insert_seps]. rewrite Hg.
  unfold non_boundary. rewrite (is_digit_word d Hd), (is_digit_word a Ha).
  cbn [Bool.eqb andb list_ascii_of_string].
  rewrite grouped_cons, length_list_ascii.
  destruct (sep_before (String.length (String a r)));
    cbn [list_ascii_of_string app]; rewrite (IH a Ha Hr); reflexivity.
Qed.

Lemma insert_seps_head prev a r :
  is_digit a = true ->
  match prev with Some c => is_word c | None => false end = false ->
  insert_seps prev (String a r) = String a (insert_seps (Some a) r).
Proof.
  intros Ha Hp. cbn [insert_seps]. unfold non_boundary.
  rewrite Hp, (is_digit_word a Ha). reflexivity.
Qed.

(** On a run of digits [formatNumber] is the grouping of the specification. *)
Lemma formatNumber_digits s :
  all_digits s = true -> formatNumber s = group3_spec s.
Proof.
  intros Hs. unfold formatNumber, group3_spec.
  destruct s as [|a r]; [reflexivity|].
  cbn [all_digits] in Hs. apply andb_prop in Hs as (Ha & Hr).
  rewrite (insert_seps_head None a r Ha eq_refl).
  cbn [list_ascii_of_string]. rewrite grouped_cons, length_list_ascii.
  rewrite <- (insert_seps_after_digit a r Ha Hr).
  cbn [string_of_list_ascii]. rewrite string_of_list_ascii_of_string.
  reflexivity.
Qed.

Lemma digit_groups_nondigit a s :
  is_digit a = false -> digit_groups (String a s) = false.
Proof.
  intros Ha. destruct s as [|b [|c r]]; try reflexivity.
  cbn [digit_groups]. rewrite Ha. reflexivity.
Qed.

(** A leading minus sign stays where it is and draws no separator. *)
Lemma formatNumber_minus s :
  all_digits s = true ->
  formatNumber (String "-" s) = String "-" (formatNumber s).
Proof.
  intros Hs. unfold formatNumber.
  assert (insert_seps None (String "-" s)
          = String "-"%char (insert_seps (Some "-"%char) s)) as ->.
  { cbn [insert_seps].
    rewrite (digit_groups_nondigit "-"%char s eq_refl), andb_false_r.
    reflexivity. }
  destruct s as [|a r]; [reflexivity|].
  cbn [all_digits] in Hs. apply andb_prop in Hs as (Ha & Hr).
  rewrite (insert_seps_head (Some "-"%char) a r Ha eq_refl).
  rewrite (insert_seps_head None a r Ha eq_refl). reflexivity.
Qed.

End StringFacts.

Module FixedFacts.
Import StringFacts.

Lemma string_of_uint_digits d :
  all_digits (DecimalString.NilEmpty.string_of_uint d) = true.
Proof. induction d; simpl; auto. Qed.

Lemma decimal_digits n : all_digits (decimal n) = true.
Proof. apply string_of_uint_digits. Qed.

Lemma decimal_nonempty n : decimal n <> "".
Proof.
  unfold decimal. destruct (Z.to_N n) as [|p]; [discriminate|].
  cbn [N.to_uint]. pose proof (DecimalPos.Unsigned.to_uint_nonnil p) as H.
  destruct (Pos.to_uint p); [congruence| | | | | | | | | |]; discriminate.
Qed.

Lemma zeros_digits n : all_digits (zeros n) = true.
Proof. induction n; simpl; auto. Qed.

Lemma length_zeros n : String.length (zeros n) = n.
Proof. induction n; simpl; congruence. Qed.

Lemma substring_split s n :
  (n <= String.length s)%nat ->
  (substring 0 n s ++ substring n (String.length s - n) s)%string = s.
Proof.
  revert n. induction s as [|c r IH]; intros [|n] Hn; simpl in *; try lia.
  - reflexivity.
  - f_equal. specialize (IH 0%nat ltac:(lia)).
    destruct (String.length r) as [|m] eqn:E.
    + destruct r; [reflexivity|discriminate].
    + rewrite Nat.sub_0_r in IH. simpl in IH.
      destruct r as [|c' r']; [discriminate|]. simpl in *. exact IH.
  - f_equal. apply IH. lia.
Qed.

Lemma length_substring s n m :
  (n + m <= String.length s)%nat -> String.length (substring n m s) = m.
Proof.
  revert n m. induction s as [|c r IH]; intros [|n] [|m] H; simpl in *;
    try reflexivity; try lia.
  - f_equal. apply IH. simpl. lia.
  - apply IH. lia.
  - apply IH. lia.
Qed.

Lemma substring_digits s n m :
  all_digits s = true -> all_digits (substring n m s) = true.
Proof.
  revert n m. induction s as [|c r IH]; intros [|n] [|m] H; simpl in *;
    try reflexivity.
  - apply andb_prop in H as (Hc & Hr). rewrite Hc. simpl. apply IH, Hr.
  - apply andb_prop in H as (Hc & Hr). apply IH, Hr.
  - apply andb_prop in H as (Hc & Hr). apply IH, Hr.
Qed.

(** The digits [toFixed] prints for f > 0 fractional digits: the decimal
    digits of the scaled integer, led by zeros up to f + 1 of them, with the
    point before the last f. *)
Lemma fixed_digits_shape f k :
  let m := decimal (nearest_scaled (S f) k) in
  exists a b,
    fixed_digits (S f) k = (a ++ "." ++ b)%string /\
    String.length b = S f /\ a <> "" /\
    all_digits a = true /\ all_digits b = true /\
    (a ++ b)%string = (zeros (S f + 1 - String.length m) ++ m)%string.
Proof.
  intros m. unfold fixed_digits. fold m.
  set (m' := if (String.length m <=? S f)%nat
             then (zeros (S f + 1 - String.length m) ++ m)%string else m).
  assert (m' = (zeros (S f + 1 - String.length m) ++ m)%string) as Em.
  { subst m'. destruct (Nat.leb_spec (String.length m) (S f)); [reflexivity|].
    replace (S f + 1 - String.length m)%nat with 0%nat by lia. reflexivity. }
  assert (S f + 1 <= String.length m')%nat as Hlen.
  { rewrite Em, length_append, length_zeros. lia. }
  assert (all_digits m' = true) as Hd.
  { rewrite Em, all_digits_append, zeros_digits. apply decimal_digits. }
  exists (substring 0 (String.length m' - S f) m'),
         (substring (String.length m' - S f) (S f) m').
  split; [reflexivity|].
  split; [apply length_substring; lia|].
  split.
  { intros E.
    pose proof (length_substring m' 0 (String.length m' - S f) ltac:(lia)) as L.
    rewrite E in L. change (String.length "") with 0%nat in L. lia. }
  split; [apply substring_digits, Hd|].
  split; [apply substring_digits, Hd|].
  rewrite <- Em.
  pose proof (substring_split m' (String.length m' - S f) ltac:(lia)) as Sp.
  replace (String.length m' - (String.length m' - S f))%nat with (S f) in Sp
    by lia.
  exact Sp.
Qed.

(** The scaled integer is within half a unit of the scaled value. *)
Lemma nearest_scaled_close f k :
  2 * Z.abs (nearest_scaled f k * one_units - Z.of_N k * 10 ^ Z.of_nat f)
  <= one_units.
Proof.
  unfold nearest_scaled. pose proof NumFacts.one_units_pos as Hu.
  set (x := Z.of_N k * 10 ^ Z.of_nat f).
  replace (2 * Z.of_N k * 10 ^ Z.of_nat f) with (2 * x) by (subst x; ring).
  rewrite Z.shiftr_div_pow2 by lia.
  replace (2 ^ 1075) with (2 * one_units) by (vm_compute; reflexivity).
  pose proof (Z.div_mod (2 * x + one_units) (2 * one_units) ltac:(lia)) as E.
  pose proof (Z.mod_pos_bound (2 * x + one_units) (2 * one_units) ltac:(lia)) as B.
  lia.
Qed.

Lemma toFixed_finite `{Host} f s k :
  Z.of_N k < 10 ^ 21 * one_units ->
  toFixed f (Fin s k) = (minus_sign s k ++ fixed_digits f k)%string.
Proof.
  intros Hk. unfold toFixed.
  destruct (Z.leb_spec (10 ^ 21 * one_units) (Z.of_N k)); [lia|reflexivity].
Qed.

End FixedFacts.

(** ** What the counters display *)

Import StringFacts FixedFacts.

Lemma epoch_texts `{Host} :
  toFixed 2 (remainingKm3 (secondsSinceStart startOfYear)) = "46.40"%string /\
  formatNumber (toFixed 0 (meltedM3 (secondsSinceStart startOfYear)))
    = "0"%string /\
  formatNumber (toFixed 0 (trucks (secondsSinceStart startOfYear)))
    = "0"%string.
Proof.
  split; [vm_compute; reflexivity|].
  split; vm_compute; reflexivity.
Qed.

Lemma formatNumber_signed (sg : bool) ds :
  all_digits ds = true ->
  formatNumber ((if sg then "-" else "") ++ ds)
  = ((if sg then "-" else "") ++ group3_spec ds)%string.
Proof.
  intros Hd. destruct sg; cbn [append].
  - rewrite formatNumber_minus by assumption.
    rewrite formatNumber_digits by assumption. reflexivity.
  - apply formatNumber_digits, Hd.
Qed.

(** C4: the remaining volume is printed with exactly 2 decimals; the melted
    volume and the truck count are rounded to the nearest integer and
    printed with a separator every 3 digits from the right, none in front
    and no decimal part; 1234567, 999 and 1000 print as 1,234,567, 999 and
    1,000; at t = 0 the regions show 46.40, 0 and 0. *)
Theorem display_formats `{Host} (now : Z) (p : page) (nv nm nt : node) :
  valid_time now ->
  document p "volume-remaining" = Some nv ->
  document p "melted-since" = Some nm ->
  document p "truck-count" = Some nt ->
  let t := secondsSinceStart now in
  exists p' kv sm km st kt a b,
    updateCounters now (Some "volume-remaining"%string)
      (Some "melted-since"%string) (Some "truck-count"%string) p = Ok tt p' /\
    (remainingKm3 t = Fin false kv /\ meltedM3 t = Fin sm km /\
     trucks t = Fin st kt) /\
    (shown "volume-remaining" p' = Some (a ++ "." ++ b)%string /\
     String.length b = 2%nat /\ a <> ""%string /\
     all_digits a = true /\ all_digits b = true /\
     (a ++ b)%string
       = (zeros (3 - String.length (decimal (nearest_scaled 2 kv)))
          ++ decimal (nearest_scaled 2 kv))%string) /\
    shown "melted-since" p'
      = Some (minus_sign sm km
              ++ group3_spec (decimal (nearest_scaled 0 km)))%string /\
    shown "truck-count" p'
      = Some (minus_sign st kt
              ++ group3_spec (decimal (nearest_scaled 0 kt)))%string /\
    (forall f k,
       2 * Z.abs (nearest_scaled f k * one_units - Z.of_N k * 10 ^ Z.of_nat f)
       <= one_units) /\
    (formatNumber "1234567" = "1,234,567"%string /\
     formatNumber "999" = "999"%string /\
     formatNumber "1000" = "1,000"%string) /\
    (now = startOfYear ->
     shown "volume-remaining" p' = Some "46.40"%string /\
     shown "melted-since" p' = Some "0"%string /\
     shown "truck-count" p' = Some "0"%string).
Proof.
  intros Hnow Hv Hm Ht t.
  destruct (clock_values_fixed now Hnow)
    as ((kv & Ev & Bv) & (sm & km & Em & Bm) & (st & kt & Et & Bt)).
  fold t in Ev, Em, Et.
  destruct (updateCounters_shows now p nv nm nt Hv Hm Ht)
    as (p' & E & S1 & S2 & S3 & _).
  fold t in S1, S2, S3.
  destruct (fixed_digits_shape 1 kv) as (a & b & Ef & Lb & Na & Da & Db & Eab).
  exists p', kv, sm, km, st, kt, a, b.
  split; [exact E|].
  split; [repeat split; assumption|].
  split.
  { split; [|repeat split; assumption].
    rewrite S1, Ev, toFixed_finite by assumption. rewrite Ef. reflexivity. }
  split.
  { rewrite S2, Em, toFixed_finite by assumption. f_equal.
    apply (formatNumber_signed (sm && negb (km =? 0)%N)), decimal_digits. }
  split.
  { rewrite S3, Et, toFixed_finite by assumption. f_equal.
    apply (formatNumber_signed (st && negb (kt =? 0)%N)), decimal_digits. }
  split; [apply nearest_scaled_close|].
  split; [split; [reflexivity|split; reflexivity]|].
  intros ->. destruct epoch_texts as (T1 & T2 & T3). subst t.
  rewrite S1, S2, S3, T1, T2, T3. repeat split.
Qed.

Lemma display_formats_witness :
  valid_time startOfYear /\
  exists p',
    updateCounters (H := plain_host) startOfYear
      (Some "volume-remaining"%string) (Some "melted-since"%string)
      (Some "truck-count"%string) (sample_page "" [] true) = Ok tt p' /\
    shown "volume-remaining" p' = Some "46.40"%string /\
    shown "melted-since" p' = Some "0"%string /\
    shown "truck-count" p' = Some "0"%string.
Proof.
  assert (valid_time startOfYear) as V by (split; discriminate).
  split; [exact V|].
  destruct (display_formats (H := plain_host) startOfYear
              (sample_page "" [] true) blank blank blank V
              eq_refl eq_refl eq_refl)
    as (p' & kv & sm & km & st & kt & a & b & E & _ & _ & _ & _ & _ & _ & D).
  exists p'. split; [exact E|]. exact (D eq_refl).
Defined.

(** ** One year after the epoch *)

(** The stated values are not all met one year after the epoch: 46.4 - 1.2 is not
    the number 45.2, and the truck count is not the integer 120000000. *)
Lemma one_year_values_not_exact :
  ~ (remainingKm3 SECONDS_PER_YEAR = lit 452 10 /\
     meltedM3 SECONDS_PER_YEAR = of_Z 1200000000 /\
     trucks SECONDS_PER_YEAR = of_Z 120000000).
Proof.
  intros (A & _ & _). vm_compute in A. discriminate A.
Qed.

(** C3, amended: the three rates are derived from the constants as stated;
    one year after the epoch the melted volume is exactly 1.2e9, the
    remaining volume is the binary64 difference 46.4 - 1.2, that is
    45.199999999999996, just under 45.2, and the truck count is
    120000000.00000001, just over 1.2e8; the page shows 45.20,
    1,200,000,000 and 120,000,000. *)
Theorem one_year_values `{Host} :
  (MELT_RATE_M3_PER_SEC
     = ((YEARLY_MELT_KM3 * of_Z 1000000000) / SECONDS_PER_YEAR)%num /\
   MELT_RATE_L_PER_SEC = (MELT_RATE_M3_PER_SEC * of_Z 1000)%num /\
   TRUCK_RATE_PER_SEC = (MELT_RATE_L_PER_SEC / TRUCK_CAPACITY_L)%num) /\
  (SECONDS_PER_YEAR = of_Z 31536000 /\
   secondsSinceStart (startOfYear + 31536000000) = SECONDS_PER_YEAR) /\
  (remainingKm3 SECONDS_PER_YEAR = (START_VOLUME_KM3 - YEARLY_MELT_KM3)%num /\
   remainingKm3 SECONDS_PER_YEAR = lit 45199999999999996 1000000000000000 /\
   lt (remainingKm3 SECONDS_PER_YEAR) (lit 452 10)) /\
  meltedM3 SECONDS_PER_YEAR = of_Z 1200000000 /\
  (trucks SECONDS_PER_YEAR = lit 12000000000000001 100000000 /\
   lt (of_Z 120000000) (trucks SECONDS_PER_YEAR)) /\
  (toFixed 2 (remainingKm3 SECONDS_PER_YEAR) = "45.20"%string /\
   formatNumber (toFixed 0 (meltedM3 SECONDS_PER_YEAR))
     = "1,200,000,000"%string /\
   formatNumber (toFixed 0 (trucks SECONDS_PER_YEAR))
     = "120,000,000"%string).
Proof.
  split.
  { split; [vm_compute; reflexivity|].
    split; vm_compute; reflexivity. }
  split.
  { split; vm_compute; reflexivity. }
  split.
  { split; [vm_compute; reflexivity|].
    split; [vm_compute; reflexivity|]. num_decide. }
  split; [vm_compute; reflexivity|].
  split.
  { split; [vm_compute; reflexivity|]. num_decide. }
  split; [vm_compute; reflexivity|].
  split; vm_compute; reflexivity.
Qed.

(** ** Negative values on display *)

Lemma half_units : lit 5 10 = Fin false (Z.to_N (2 ^ 1073)).
Proof. vm_compute. reflexivity. Qed.

Lemma two_halves : 2 * 2 ^ 1073 = one_units.
Proof. vm_compute. reflexivity. Qed.

(** C10: under a leading minus sign only the digits are grouped, so that
    -1234567 prints as -1,234,567, and every value strictly between -0.5
    and 0 prints as -0. *)
Theorem negative_display `{Host} (ds : string) (x : number) :
  all_digits ds = true ->
  lt (neg (lit 5 10)) x -> lt x zero ->
  formatNumber (String "-" ds) = String "-" (group3_spec ds) /\
  formatNumber "-1234567" = "-1,234,567"%string /\
  toFixed 0 x = "-0"%string /\
  formatNumber (toFixed 0 x) = "-0"%string.
Proof.
  intros Hd Hlo Hhi.
  split.
  { rewrite formatNumber_minus by assumption.
    rewrite formatNumber_digits by assumption. reflexivity. }
  split; [reflexivity|].
  assert (toFixed 0 x = "-0"%string) as E.
  { rewrite half_units in Hlo.
    destruct Hlo as (_ & _ & Hlo), Hhi as (_ & _ & Hhi).
    pose proof NumFacts.one_units_pos as Hu. pose proof NumFacts.top_pos as Ht.
    pose proof two_halves as Hh.
    assert (0 < 2 ^ 1073) as Hp by lia.
    change (key zero) with 0 in Hhi.
    destruct x as [|sx|sx k]; cbn [key neg negb sval] in Hlo, Hhi.
    - lia.
    - rewrite Z2N.id in Hlo by lia. destruct sx; [|lia].
      assert (2 ^ 1073 < top) by (apply Z.ltb_lt; vm_compute; reflexivity).
      lia.
    - rewrite Z2N.id in Hlo by lia. unfold sval in Hlo, Hhi.
      destruct sx; [|lia].
      assert (10 ^ 21 = 1000000000000000000000) as E21 by reflexivity.
      rewrite toFixed_finite by (rewrite E21; lia).
      unfold minus_sign.
      replace (k =? 0)%N with false by (symmetry; apply N.eqb_neq; lia).
      cbn [andb negb fixed_digits]. unfold nearest_scaled.
      rewrite Z.shiftr_div_pow2 by lia.
      replace (2 ^ 1075) with (2 * one_units) by (vm_compute; reflexivity).
      change (10 ^ Z.of_nat 0) with 1.
      rewrite Z.div_small by lia. reflexivity. }
  split; [exact E|]. rewrite E. reflexivity.
Qed.

Lemma negative_display_witness :
  all_digits "1234567" = true /\
  lt (neg (lit 5 10)) (meltedM3 (secondsSinceStart (startOfYear - 1))) /\
  lt (meltedM3 (secondsSinceStart (startOfYear - 1))) zero /\
  formatNumber "-1234567" = String "-" (group3_spec "1234567") /\
  formatNumber
    (toFixed (H := plain_host) 0
       (meltedM3 (secondsSinceStart (startOfYear - 1)))) = "-0"%string.
Proof.
  assert (lt (neg (lit 5 10)) (meltedM3 (secondsSinceStart (startOfYear - 1))))
    as Hlo by num_decide.
  assert (lt (meltedM3 (secondsSinceStart (startOfYear - 1))) zero)
    as Hhi by num_decide.
  pose proof (negative_display (H := plain_host) "1234567" _ eq_refl Hlo Hhi)
    as (A & _ & _ & D).
  exact (conj eq_refl (conj Hlo (conj Hhi (conj A D)))).
Defined.

(** ** The audio toggle *)

Lemma has_token_filter tok t l :
  has_token tok (filter (fun x => negb (String.eqb t x)) l)
  = negb (String.eqb t tok) && has_token tok l.
Proof.
  unfold has_token. induction l as [|x l IH].
  - simpl. rewrite andb_false_r. reflexivity.
  - simpl. destruct (String.eqb_spec t x) as [->|N]; simpl.
    + rewrite IH. destruct (String.eqb_spec tok x) as [->|N'].
      * rewrite String.eqb_refl. reflexivity.
      * reflexivity.
    + rewrite IH. destruct (String.eqb_spec tok x) as [->|N'].
      * rewrite (proj2 (String.eqb_neq t x) N). reflexivity.
      * destruct (negb (String.eqb t tok)); reflexivity.
Qed.

Lemma has_token_set tok l : has_token tok (token_set l) = has_token tok l.
Proof.
  induction l as [|t l IH]; [reflexivity|].
  cbn [token_set].
  change (has_token tok (t :: filter (fun x => negb (String.eqb t x)) (token_set l)))
    with (String.eqb tok t
          || has_token tok (filter (fun x => negb (String.eqb t x)) (token_set l))).
  change (has_token tok (t :: l)) with (String.eqb tok t || has_token tok l).
  rewrite has_token_filter, IH.
  destruct (String.eqb_spec tok t) as [->|N]; [reflexivity|].
  replace (String.eqb t tok) with false
    by (symmetry; apply String.eqb_neq; congruence).
  reflexivity.
Qed.

Lemma has_token_add tok l : has_token tok (token_add tok l) = true.
Proof.
  unfold token_add. cbv zeta.
  destruct (has_token tok (token_set l)) eqn:E; [exact E|].
  unfold has_token. rewrite existsb_app. simpl.
  rewrite String.eqb_refl. apply orb_true_r.
Qed.

Lemma has_token_remove tok l : has_token tok (token_remove tok l) = false.
Proof.
  unfold token_remove. rewrite has_token_filter, String.eqb_refl. reflexivity.
Qed.

(** One activation: the mute flag flips, and label and mark follow it. *)
Lemma click_once p v b :
  document p "background-video" = Some v ->
  document p "audio-toggle" = Some b ->
  exists p1 v1 b1,
    click p = Ok tt p1 /\
    document p1 "background-video" = Some v1 /\
    document p1 "audio-toggle" = Some b1 /\
    muted v1 = negb (muted v) /\
    textContent b1
      = (if muted v then "Ton ausschalten" else "Ton abspielen")%string /\
    has_token "active" (classList b1) = muted v.
Proof.
  intros Hv Hb. unfold click, toggleAudio, bind, read_node. rewrite Hv.
  destruct (muted v) eqn:Em.
  - eexists _, _, _. split; [reflexivity|].
    cbn. unfold update_node. cbn. rewrite Hv, Hb. cbn.
    split; [reflexivity|]. split; [reflexivity|].
    split; [reflexivity|]. split; [reflexivity|]. apply has_token_add.
  - eexists _, _, _. split; [reflexivity|].
    cbn. unfold update_node. cbn. rewrite Hv, Hb. cbn.
    split; [reflexivity|]. split; [reflexivity|].
    split; [reflexivity|]. split; [reflexivity|]. apply has_token_remove.
Qed.

(** C7: after every activation of the toggle, the video is unmuted exactly
    when the control is marked active, and exactly when the label is the
    mute prompt. *)
Theorem toggle_keeps_control_consistent (p : page) (v b : node) :
  document p "background-video" = Some v ->
  document p "audio-toggle" = Some b ->
  exists p1,
    click p = Ok tt p1 /\
    (mute_flag p1 = Some false <-> visual_active p1 = Some true) /\
    (mute_flag p1 = Some false <-> label p1 = Some "Ton ausschalten"%string) /\
    control_consistent p1.
Proof.
  intros Hv Hb.
  destruct (click_once p v b Hv Hb) as (p1 & v1 & b1 & E & Hv1 & Hb1 & Hm & Ht & Hc).
  exists p1. split; [exact E|].
  unfold control_consistent, mute_flag, visual_active, label.
  rewrite Hv1, Hb1. cbn [option_map]. rewrite Hm, Ht, Hc.
  destruct (muted v); cbn [negb].
  - split; [tauto|]. split; [tauto|].
    exists false. repeat split.
  - split; [split; discriminate|]. split; [split; discriminate|].
    exists true. repeat split.
Qed.

Lemma toggle_keeps_control_consistent_witness :
  document (sample_page "Ton abspielen" [] true) "background-video"
    = Some {| textContent := ""; classList := []; muted := true |} /\
  exists p1,
    click (sample_page "Ton abspielen" [] true) = Ok tt p1 /\
    (mute_flag p1 = Some false <-> visual_active p1 = Some true) /\
    (mute_flag p1 = Some false <-> label p1 = Some "Ton ausschalten"%string) /\
    control_consistent p1.
Proof.
  split; [reflexivity|].
  exact (toggle_keeps_control_consistent
           (sample_page "Ton abspielen" [] true) _ _ eq_refl eq_refl).
Defined.

(** A control that starts out of step with the video (the video unmuted,
    the label and mark still those of the muted state) does not come back
    to its starting label and mark after two activations. *)
Lemma toggle_twice_from_inconsistent_start :
  let p := sample_page "Ton abspielen" [] false in
  let p2 := page_of ((click ;; click) p) in
  ~ (mute_flag p2 = mute_flag p /\ label p2 = label p /\
     visual_active p2 = visual_active p).
Proof.
  intros p p2 (_ & L & _). vm_compute in L. discriminate L.
Qed.

(** C6, amended: two consecutive activations always bring the mute flag
    back; the label and the mark end as the handler writes them for that
    mute flag, hence come back to their starting values when the control
    was consistent at the start. *)
Theorem toggle_twice_restores (p : page) (v b : node) :
  document p "background-video" = Some v ->
  document p "audio-toggle" = Some b ->
  control_consistent p ->
  exists p2,
    (click ;; click) p = Ok tt p2 /\
    mute_flag p2 = mute_flag p /\
    label p2 = label p /\
    visual_active p2 = visual_active p.
Proof.
  intros Hv Hb (m & Cm & Cl & Ca).
  destruct (click_once p v b Hv Hb)
    as (p1 & v1 & b1 & E1 & Hv1 & Hb1 & Hm1 & _ & _).
  destruct (click_once p1 v1 b1 Hv1 Hb1)
    as (p2 & v2 & b2 & E2 & Hv2 & Hb2 & Hm2 & Ht2 & Hc2).
  exists p2. split.
  { unfold bind. rewrite E1. exact E2. }
  rewrite Cl, Ca. unfold mute_flag, label, visual_active in *.
  rewrite Hv in *. rewrite Hv2, Hb2. cbn [option_map] in *.
  injection Cm as Cm.
  rewrite Hm2, Ht2, Hc2, Hm1, Cm. destruct m; repeat split; reflexivity.
Qed.

Lemma toggle_twice_restores_witness :
  control_consistent (sample_page "Ton abspielen" [] true) /\
  exists p2,
    (click ;; click) (sample_page "Ton abspielen" [] true) = Ok tt p2 /\
    mute_flag p2 = mute_flag (sample_page "Ton abspielen" [] true) /\
    label p2 = label (sample_page "Ton abspielen" [] true) /\
    visual_active p2 = visual_active (sample_page "Ton abspielen" [] true).
Proof.
  assert (control_consistent (sample_page "Ton abspielen" [] true)) as C
    by (exists true; repeat split).
  split; [exact C|].
  exact (toggle_twice_restores
           (sample_page "Ton abspielen" [] true) _ _ eq_refl eq_refl C).
Defined.

(** ** Startup *)

(** The script with the three texts of its first update left abstract. *)
Lemma script_outcome `{Host} now p :
  let r := script now p in
  let regions := has "volume-remaining" p && has "melted-since" p
                 && has "truck-count" p in
  let video := if has "background-video" p
               then Some "background-video"%string else None in
  threw r = negb (regions && has "audio-toggle" p) /\
  intervals (page_of r)
    = (if regions
       then intervals p ++
            [(UpdateCounters (Some "volume-remaining"%string)
                (Some "melted-since"%string) (Some "truck-count"%string),
              1000)]
       else intervals p)%list /\
  listeners (page_of r)
    = (if regions && has "audio-toggle" p
       then listeners p ++
            [("audio-toggle"%string, "click"%string,
              ToggleAudio video (Some "audio-toggle"%string))]
       else listeners p)%list /\
  window_initMap (page_of r)
    = (window_initMap p || (regions && has "audio-toggle" p)).
Proof.
  unfold script, updateCounters, has, bind, getElementById.
  generalize (toFixed 2 (remainingKm3 (secondsSinceStart now))).
  generalize (formatNumber (toFixed 0 (meltedM3 (secondsSinceStart now)))).
  generalize (formatNumber (toFixed 0 (trucks (secondsSinceStart now)))).
  intros s3 s2 s1.
  destruct (document p "volume-remaining") as [nv|];
    destruct (document p "melted-since") as [nm|];
    destruct (document p "truck-count") as [nt|];
    destruct (document p "audio-toggle") as [nb|];
    destruct (document p "background-video") as [nvid|];
    cbn; rewrite ?orb_true_r, ?orb_false_r; repeat split; reflexivity.
Qed.

(** With the toggle control missing the script throws only after the
    counters were written and the timer was started; with the video
    missing it does not throw at all. *)
Lemma startup_not_fail_fast :
  let r1 := script (H := plain_host) startOfYear
              (without "audio-toggle" (sample_page "" [] true)) in
  let r2 := script (H := plain_host) startOfYear
              (without "background-video" (sample_page "" [] true)) in
  ~ (threw r1 = true /\ intervals (page_of r1) = []
     /\ shown "volume-remaining" (page_of r1) = Some ""%string) /\
  ~ (threw r2 = true).
Proof.
  intros r1 r2. split.
  - intros (_ & I & _). vm_compute in I. discriminate I.
  - intros T. vm_compute in T. discriminate T.
Qed.

(** C8, amended: the script checks no lookup.  It throws a TypeError
    exactly when a counter region or the toggle control is missing; a
    missing video does not stop it.  When a counter region is missing,
    no timer, no listener and no initMap are registered; when only the
    toggle control is missing, the counters have been written and their
    timer runs, while the listener and initMap are not registered. *)
Theorem startup_outcome `{Host} (now : Z) (p : page) :
  let r := script now p in
  let regions := has "volume-remaining" p && has "melted-since" p
                 && has "truck-count" p in
  threw r = negb (regions && has "audio-toggle" p) /\
  List.length (intervals (page_of r))
    = (List.length (intervals p) + (if regions then 1 else 0))%nat /\
  List.length (listeners (page_of r))
    = (List.length (listeners p)
       + (if regions && has "audio-toggle" p then 1 else 0))%nat /\
  window_initMap (page_of r)
    = (window_initMap p || (regions && has "audio-toggle" p)) /\
  (regions = true -> has "audio-toggle" p = false ->
   shown "volume-remaining" (page_of r)
     = Some (toFixed 2 (remainingKm3 (secondsSinceStart now)))).
Proof.
  intros r regions.
  destruct (script_outcome now p) as (T & I & L & W).
  fold r in T, I, L, W. fold regions in T, I, L, W.
  split; [exact T|].
  split; [rewrite I; destruct regions; rewrite ?length_app; simpl; lia|].
  split; [rewrite L; destruct (regions && has "audio-toggle" p);
          rewrite ?length_app; simpl; lia|].
  split; [exact W|].
  intros Hr Hb. subst r regions.
  apply andb_prop in Hr as (Hr & Ht). apply andb_prop in Hr as (Hv & Hm).
  unfold has in Hv, Hm, Ht, Hb.
  destruct (document p "volume-remaining") as [nv|] eqn:Ev; [|discriminate].
  destruct (document p "melted-since") as [nm|] eqn:Em; [|discriminate].
  destruct (document p "truck-count") as [nt|] eqn:Et; [|discriminate].
  destruct (document p "audio-toggle") as [nb|] eqn:Eb; [discriminate|].
  destruct (updateCounters_shows now p nv nm nt Ev Em Et)
    as (p' & E & S1 & _ & _ & _).
  unfold script, bind, getElementById. rewrite Ev, Em, Et, Eb.
  destruct (document p "background-video"); rewrite E; cbn; exact S1.
Qed.

Lemma startup_outcome_witness :
  let p := without "audio-toggle" (sample_page "" [] true) in
  let r := script (H := plain_host) startOfYear p in
  has "volume-remaining" p && has "melted-since" p && has "truck-count" p
    = true /\
  has "audio-toggle" p = false /\
  shown "volume-remaining" (page_of r)
    = Some (toFixed (H := plain_host) 2
              (remainingKm3 (secondsSinceStart startOfYear))).
Proof.
  intros p r. split; [reflexivity|]. split; [reflexivity|].
  exact (proj2 (proj2 (proj2 (proj2
           (startup_outcome (H := plain_host) startOfYear p))))
           eq_refl eq_refl).
Defined.

(** ** The map *)

Lemma update_nth_last {A} (f : A -> A) (l : list A) (x : A) :
  update_nth (List.length l) f (l ++ [x]) = (l ++ [f x])%list.
Proof. induction l as [|y l IH]; simpl; [reflexivity|]. rewrite IH. reflexivity. Qed.

(** C9: one call of the map initializer adds exactly one map, centred on
    the Matterhorn with zoom 13, hybrid type, tilt 45, heading 0 and the
    default UI disabled, whose styles are the dark theme and nothing else,
    and exactly one marker, at the centre, titled Matterhorn. *)
Theorem initMap_builds_map_and_marker (p : page) :
  exists p',
    initMap p = Ok tt p' /\
    maps p'
      = (maps p ++
         [{| mapDiv := if has "map" p then Some "map"%string else None;
             options :=
               {| center := Some matterhorn; zoom := Some (of_Z 13);
                  mapTypeId := Some "hybrid"%string; tilt := Some (of_Z 45);
                  heading := Some (of_Z 0); disableDefaultUI := Some true;
                  styles := Some darkStyle |} |}])%list /\
    markers p'
      = (markers p ++
         [{| position := matterhorn; marker_map := List.length (maps p);
             title := "Matterhorn" |}])%list /\
    (forall m : MapOptions,
       styles (merge_options style_options m) = Some darkStyle) /\
    matterhorn = {| lat := lit 4597631 100000; lng := lit 765827 100000 |} /\
    document p' = document p /\ intervals p' = intervals p /\
    listeners p' = listeners p.
Proof.
  unfold initMap, bind, getElementById, new_Map, setOptions, new_Marker,
    with_maps, has.
  eexists. split; [reflexivity|].
  cbn [maps markers document intervals listeners].
  rewrite update_nth_last. cbn [mapDiv options].
  split.
  { destruct (document p "map"); reflexivity. }
  repeat split.
Qed.

(** * Further properties *)

(** ** [formatNumber] on arbitrary strings *)

Lemma erase_insert_seps prev s :
  erase_commas (insert_seps prev s) = erase_commas s.
Proof.
  revert prev. induction s as [|c r IH]; intros prev.
  - cbn [insert_seps]. destruct (non_boundary prev "" && digit_groups "");
      reflexivity.
  - cbn [insert_seps].
    destruct (non_boundary prev (String c r) && digit_groups (String c r));
      cbn [erase_commas]; rewrite ?IH;
      change (Ascii.eqb "," ",") with true; cbn iota; rewrite ?IH; reflexivity.
Qed.

(** X1: [formatNumber] only ever inserts commas: whatever the string, taking
    the commas out of the result gives the string without its own commas,
    so no character is dropped, changed or moved. *)
Theorem formatNumber_only_inserts_commas (s : string) :
  erase_commas (formatNumber s) = erase_commas s.
Proof. apply erase_insert_seps. Qed.

Import StringFacts.

Lemma list_ascii_append s1 s2 :
  list_ascii_of_string (s1 ++ s2)
  = (list_ascii_of_string s1 ++ list_ascii_of_string s2)%list.
Proof. induction s1 as [|c s IH]; simpl; congruence. Qed.

Lemma length_grouped l :
  List.length (grouped l) = (List.length l + (List.length l - 1) / 3)%nat.
Proof.
  induction l as [|c l IH]; [reflexivity|].
  rewrite grouped_cons. cbn [List.length]. rewrite length_app, IH.
  set (n := List.length l). replace (S n - 1)%nat with n by lia.
  pose proof (Nat.div_mod_eq n 3) as E1.
  pose proof (Nat.mod_upper_bound n 3 ltac:(lia)) as B1.
  pose proof (Nat.div_mod_eq (n - 1) 3) as E2.
  pose proof (Nat.mod_upper_bound (n - 1) 3 ltac:(lia)) as B2.
  unfold sep_before.
  destruct (Nat.ltb_spec 0 n); destruct (Nat.eqb_spec (n mod 3) 0);
    cbn [andb List.length]; lia.
Qed.

(** X2: on every string of digits [formatNumber] is the grouping by 3 from
    the right, and a string of n digits comes out with (n - 1) / 3 commas
    added. *)
Theorem formatNumber_groups_digits (s : string) :
  all_digits s = true ->
  formatNumber s = group3_spec s /\
  String.length (formatNumber s)
  = (String.length s + (String.length s - 1) / 3)%nat.
Proof.
  intros Hs. pose proof (formatNumber_digits s Hs) as E.
  split; [exact E|]. rewrite E. unfold group3_spec.
  rewrite <- length_list_ascii, list_ascii_of_string_of_list_ascii.
  rewrite length_grouped, length_list_ascii. reflexivity.
Qed.

Lemma formatNumber_groups_digits_witness :
  all_digits "1200000000" = true /\
  formatNumber "1200000000" = group3_spec "1200000000" /\
  String.length (formatNumber "1200000000") = (10 + (10 - 1) / 3)%nat.
Proof.
  exact (conj eq_refl (formatNumber_groups_digits "1200000000" eq_refl)).
Defined.

(** *** A run of digits followed by something else *)

Lemma head_not_digit_groups r :
  head_is_digit r = false -> digit_groups r = false.
Proof.
  destruct r as [|c r']; [reflexivity|]. apply digit_groups_nondigit.
Qed.

Lemma digit_groups_run a r :
  all_digits a = true -> head_is_digit r = false ->
  digit_groups (a ++ r) = sep_before (String.length a).
Proof.
  intros Ha Hr. revert Ha.
  induction a as [| x | x y | x y z rest IH] using string_ind3; intros Ha.
  - apply head_not_digit_groups, Hr.
  - cbn [append]. destruct r as [|b [|c r']]; try reflexivity.
    cbn [head_is_digit] in Hr. cbn [digit_groups]. rewrite Hr.
    rewrite andb_false_r. reflexivity.
  - cbn [append]. destruct r as [|c r']; [reflexivity|].
    cbn [head_is_digit] in Hr. cbn [digit_groups]. rewrite Hr.
    rewrite andb_false_r. reflexivity.
  - cbn [all_digits] in Ha.
    apply andb_prop in Ha as (Hx & Ha). apply andb_prop in Ha as (Hy & Ha).
    apply andb_prop in Ha as (Hz & Hrest).
    cbn [append digit_groups String.length].
    rewrite Hx, Hy, Hz, sep_before_S3, (IH Hrest). cbn [andb].
    destruct rest as [|d rest'].
    + cbn [append String.length]. rewrite Hr. reflexivity.
    + cbn [all_digits] in Hrest. apply andb_prop in Hrest as (Hd & _).
      cbn [append head_is_digit String.length]. rewrite Hd. reflexivity.
Qed.

Lemma last_of_digit d a :
  is_digit d = true -> all_digits a = true -> is_digit (last_of d a) = true.
Proof.
  revert d. induction a as [|c r IH]; intros d Hd Ha; [exact Hd|].
  cbn [all_digits] in Ha. apply andb_prop in Ha as (Hc & Hr).
  cbn [last_of]. apply IH; assumption.
Qed.

Lemma insert_seps_run d a r :
  is_digit d = true -> all_digits a = true -> head_is_digit r = false ->
  list_ascii_of_string (insert_seps (Some d) (a ++ r))
  = (((if sep_before (String.length a) then [","%char] else [])
      ++ grouped (list_ascii_of_string a))
     ++ list_ascii_of_string (insert_seps (Some (last_of d a)) r))%list.
Proof.
  revert d. induction a as [|x a' IH]; intros d Hd Ha Hr; [reflexivity|].
  pose proof (digit_groups_run _ _ Ha Hr) as Hg.
  cbn [all_digits] in Ha. apply andb_prop in Ha as (Hx & Ha').
  cbn [append] in *. cbn [insert_seps]. rewrite Hg.
  unfold non_boundary. rewrite (is_digit_word d Hd), (is_digit_word x Hx).
  cbn [Bool.eqb andb list_ascii_of_string last_of].
  rewrite grouped_cons, length_list_ascii.
  destruct (sep_before (String.length (String x a')));
    cbn [list_ascii_of_string app]; rewrite (IH x Hx Ha' Hr);
    rewrite <- !app_assoc; reflexivity.
Qed.

(** The first position sees the character before it only as a word
    character or not. *)
Lemma insert_seps_prev prev1 prev2 s :
  match prev1 with Some c => is_word c | None => false end
  = match prev2 with Some c => is_word c | None => false end ->
  insert_seps prev1 s = insert_seps prev2 s.
Proof.
  intros E. destruct s as [|c r]; cbn [insert_seps]; unfold non_boundary;
    rewrite E; reflexivity.
Qed.

(** X3: a decimal point cuts the string in two for [formatNumber]: the
    digits in front of it are grouped from the point leftwards, and what
    follows the point is formatted as a string of its own, so that the
    digits of a fraction get separators too. *)
Theorem formatNumber_decimal_point (a b : string) :
  all_digits a = true ->
  formatNumber (a ++ String "." b)
  = (formatNumber a ++ String "." (formatNumber b))%string.
Proof.
  intros Ha. unfold formatNumber.
  assert (forall prev, is_digit prev = true ->
            insert_seps (Some prev) (String "." b)
            = String "."%char (insert_seps None b)) as Hdot.
  { intros prev Hp. cbn [insert_seps].
    rewrite (digit_groups_nondigit "."%char b eq_refl), andb_false_r.
    f_equal. apply insert_seps_prev. reflexivity. }
  destruct a as [|x a'].
  - change (insert_seps None "") with ""%string. cbn [append insert_seps].
    rewrite (digit_groups_nondigit "."%char b eq_refl), andb_false_r.
    f_equal. apply insert_seps_prev. reflexivity.
  - cbn [all_digits] in Ha. apply andb_prop in Ha as (Hx & Ha').
    cbn [append]. rewrite !(insert_seps_head None x _ Hx eq_refl).
    cbn [append]. f_equal.
    rewrite <- (string_of_list_ascii_of_string (insert_seps (Some x) (a' ++ String "." b))).
    rewrite (insert_seps_run x a' (String "." b) Hx Ha' eq_refl).
    rewrite Hdot by (apply last_of_digit; assumption).
    rewrite <- (insert_seps_after_digit x a' Hx Ha').
    rewrite string_of_list_ascii_app, !string_of_list_ascii_of_string.
    reflexivity.
Qed.

Lemma formatNumber_decimal_point_witness :
  all_digits "1234" = true /\
  formatNumber "1234.5678" = "1,234.5,678"%string.
Proof.
  exact (conj eq_refl (formatNumber_decimal_point "1234" "5678" eq_refl)).
Defined.

(** ** The clock *)

Import NumFacts.

(** An integer of at most 53 bits is its own Number. *)
Lemma rnd_exact_int z : 0 <= z < 2 ^ 53 -> rnd (z * one_units) 1 = z * one_units.
Proof.
  intros Hz. destruct (Z.eq_dec z 0) as [->|Nz]; [apply rnd_zero; lia|].
  pose proof one_units_pos as Hu.
  rewrite rnd_nearest53 by nia. unfold nearest53.
  rewrite Z.div_1_r, Z.mul_1_l.
  assert (one_units = 2 ^ 1074) as EU by (vm_compute; reflexivity).
  assert (Z.log2 (z * one_units) = 1074 + Z.log2 z) as El.
  { rewrite EU. apply Z.log2_mul_pow2; lia. }
  assert (0 <= Z.log2 z < 53) as Hl.
  { split; [apply Z.log2_nonneg|]. apply Z.log2_lt_pow2; lia. }
  unfold lsb_exp. rewrite El.
  replace (Z.max 0 (1074 + Z.log2 z - 52)) with (Z.log2 z + 1022) by lia.
  set (e := Z.log2 z + 1022).
  assert (z * one_units = z * 2 ^ (1074 - e) * 2 ^ e) as Ez.
  { rewrite EU, <- Z.mul_assoc, <- Z.pow_add_r by lia. do 2 f_equal. lia. }
  rewrite Ez at 1. rewrite rne_int by (apply Z.pow_pos_nonneg; lia).
  symmetry. exact Ez.
Qed.

Lemma of_Z_exact z :
  Z.abs z < 2 ^ 53 -> of_Z z = Fin (z <? 0) (Z.to_N (Z.abs z * one_units)).
Proof.
  intros Hz. unfold of_Z, round. rewrite rnd_exact_int by lia.
  unfold of_mag.
  assert (2 ^ 53 * one_units < top) as Ht
    by (apply Z.ltb_lt; vm_compute; reflexivity).
  pose proof one_units_pos as Hu.
  destruct (Z.leb_spec top (Z.abs z * one_units)); [nia|reflexivity].
Qed.

Lemma sval_of_Z z :
  sval (z <? 0) (Z.to_N (Z.abs z * one_units)) = z * one_units.
Proof.
  pose proof one_units_pos as Hu. unfold sval.
  rewrite Z2N.id by nia. destruct (Z.ltb_spec z 0); nia.
Qed.

(** The difference of two integers of at most 53 bits is the Number of
    their difference. *)
Lemma of_Z_sub a b :
  Z.abs a < 2 ^ 53 -> Z.abs b < 2 ^ 53 -> 0 <= b ->
  sub (of_Z a) (of_Z b) = of_Z (a - b).
Proof.
  intros Ha Hb Hb0. rewrite (of_Z_exact a Ha), (of_Z_exact b Hb).
  unfold sub. cbn [neg add]. rewrite sval_neg, !sval_of_Z.
  pose proof one_units_pos as Hu.
  replace (a * one_units + - (b * one_units)) with ((a - b) * one_units)
    by ring.
  destruct (Z.eqb_spec ((a - b) * one_units) 0) as [E|N].
  - assert (a = b) as -> by nia.
    replace (b <? 0) with false by (symmetry; apply Z.ltb_ge; lia).
    rewrite Z.sub_diag. reflexivity.
  - unfold of_Z. f_equal.
    + destruct (Z.ltb_spec ((a - b) * one_units) 0),
               (Z.ltb_spec (a - b) 0); try reflexivity; nia.
    + rewrite Z.abs_mul, (Z.abs_eq one_units) by lia. reflexivity.
Qed.

(** X4: at every time value a Date can hold, the elapsed milliseconds are
    computed without rounding; the division by 1000 is the only rounding
    step on the way to the elapsed seconds. *)
Theorem elapsed_milliseconds_exact (now : Z) :
  valid_time now ->
  (of_Z now - of_Z startOfYear)%num = of_Z (now - startOfYear) /\
  secondsSinceStart now = (of_Z (now - startOfYear) / of_Z 1000)%num.
Proof.
  intros (Hlo & Hhi). unfold max_time in *.
  assert (of_Z now - of_Z startOfYear = of_Z (now - startOfYear))%num as E.
  { apply of_Z_sub.
    - change (2 ^ 53) with 9007199254740992. lia.
    - reflexivity.
    - discriminate. }
  split; [exact E|]. unfold secondsSinceStart. rewrite E. reflexivity.
Qed.

Lemma elapsed_milliseconds_exact_witness :
  valid_time 1762100000123 /\
  (of_Z 1762100000123 - of_Z startOfYear)%num
    = of_Z (1762100000123 - startOfYear) /\
  secondsSinceStart 1762100000123
    = (of_Z (1762100000123 - startOfYear) / of_Z 1000)%num.
Proof.
  assert (valid_time 1762100000123) as V by (split; discriminate).
  exact (conj V (elapsed_milliseconds_exact 1762100000123 V)).
Defined.

(** X5: from one clock reading to a later one the remaining volume does not
    go up, and the melted volume and the truck count do not go down,
    whatever the readings are. *)
Theorem counters_follow_clock (now1 now2 : Z) :
  now1 <= now2 ->
  le (remainingKm3 (secondsSinceStart now2))
     (remainingKm3 (secondsSinceStart now1)) /\
  le (meltedM3 (secondsSinceStart now1)) (meltedM3 (secondsSinceStart now2)) /\
  le (trucks (secondsSinceStart now1)) (trucks (secondsSinceStart now2)).
Proof.
  intros H. pose proof (secondsSinceStart_mono _ _ H) as T.
  pose proof (secondsSinceStart_in_range now1) as R1.
  pose proof (secondsSinceStart_in_range now2) as R2.
  split; [apply remaining_antitone; assumption|].
  split; [apply meltedM3_mono; assumption|apply trucks_mono; assumption].
Qed.

Lemma counters_follow_clock_witness :
  1762100000123 <= 1762100001123 /\
  le (remainingKm3 (secondsSinceStart 1762100001123))
     (remainingKm3 (secondsSinceStart 1762100000123)) /\
  le (meltedM3 (secondsSinceStart 1762100000123))
     (meltedM3 (secondsSinceStart 1762100001123)) /\
  le (trucks (secondsSinceStart 1762100000123))
     (trucks (secondsSinceStart 1762100001123)).
Proof.
  assert (1762100000123 <= 1762100001123) as H by discriminate.
  exact (conj H (counters_follow_clock _ _ H)).
Defined.

(** X6: at every time value a Date can hold, none of the three values is
    NaN or infinite, the remaining volume carries a plus sign, and all
    three stay under 10^21, so that no counter is ever printed as NaN, as
    Infinity or in exponent notation. *)
Theorem clock_values_are_plain (now : Z) :
  valid_time now ->
  (exists k, remainingKm3 (secondsSinceStart now) = Fin false k /\
             Z.of_N k < 10 ^ 21 * one_units) /\
  (exists s k, meltedM3 (secondsSinceStart now) = Fin s k /\
               Z.of_N k < 10 ^ 21 * one_units) /\
  (exists s k, trucks (secondsSinceStart now) = Fin s k /\
               Z.of_N k < 10 ^ 21 * one_units).
Proof. intros V. exact (clock_values_fixed now V). Qed.

Lemma clock_values_are_plain_witness :
  valid_time (- max_time) /\
  (exists k, remainingKm3 (secondsSinceStart (- max_time)) = Fin false k /\
             Z.of_N k < 10 ^ 21 * one_units) /\
  (exists s k, meltedM3 (secondsSinceStart (- max_time)) = Fin s k /\
               Z.of_N k < 10 ^ 21 * one_units) /\
  (exists s k, trucks (secondsSinceStart (- max_time)) = Fin s k /\
               Z.of_N k < 10 ^ 21 * one_units).
Proof.
  assert (valid_time (- max_time)) as V by (split; discriminate).
  exact (conj V (clock_values_are_plain _ V)).
Defined.

(** ** Before the epoch and after the ice is gone *)

Lemma depletion_clock_seconds : secondsSinceStart depletion_clock = depletion_time.
Proof. vm_compute. reflexivity. Qed.

Lemma melted_at_depletion : meltedM3 depletion_time = of_Z 46400000000.
Proof. vm_compute. reflexivity. Qed.

Lemma zero_text `{Host} : toFixed 2 zero = "0.00"%string.
Proof. vm_compute. reflexivity. Qed.

(** X7: from the clock reading at which the ice is gone onwards, the
    remaining volume is +0 and is shown as 0.00, while the melted volume is
    not stopped: it is at least 46.4e9 cubic metres, the whole starting
    volume, and goes on with the clock. *)
Theorem after_depletion `{Host} (now : Z) (p : page) (nv nm nt : node) :
  depletion_clock <= now ->
  document p "volume-remaining" = Some nv ->
  document p "melted-since" = Some nm ->
  document p "truck-count" = Some nt ->
  remainingKm3 (secondsSinceStart now) = zero /\
  le (of_Z 46400000000) (meltedM3 (secondsSinceStart now)) /\
  exists p',
    updateCounters now (Some "volume-remaining"%string)
      (Some "melted-since"%string) (Some "truck-count"%string) p = Ok tt p' /\
    shown "volume-remaining" p' = Some "0.00"%string.
Proof.
  intros Hnow Hv Hm Ht.
  pose proof (secondsSinceStart_mono _ _ Hnow) as T.
  rewrite depletion_clock_seconds in T.
  pose proof (secondsSinceStart_in_range now) as R.
  assert (remainingKm3 (secondsSinceStart now) = zero) as E
    by (apply remaining_after_depletion; assumption).
  split; [exact E|].
  split.
  { rewrite <- melted_at_depletion.
    apply meltedM3_mono; [apply depletion_time_in_range|assumption|exact T]. }
  destruct (updateCounters_shows now p nv nm nt Hv Hm Ht)
    as (p' & Ep & S1 & _).
  exists p'. split; [exact Ep|]. rewrite S1, E, zero_text. reflexivity.
Qed.

Lemma after_depletion_witness :
  depletion_clock <= depletion_clock + 86400000 /\
  remainingKm3 (secondsSinceStart (depletion_clock + 86400000)) = zero /\
  le (of_Z 46400000000)
     (meltedM3 (secondsSinceStart (depletion_clock + 86400000))) /\
  exists p',
    updateCounters (H := plain_host) (depletion_clock + 86400000)
      (Some "volume-remaining"%string) (Some "melted-since"%string)
      (Some "truck-count"%string) (sample_page "" [] true) = Ok tt p' /\
    shown "volume-remaining" p' = Some "0.00"%string.
Proof.
  assert (depletion_clock <= depletion_clock + 86400000) as Hn by discriminate.
  exact (conj Hn (after_depletion (H := plain_host) _ (sample_page "" [] true)
                    blank blank blank Hn eq_refl eq_refl eq_refl)).
Defined.

Lemma just_before_epoch : lt (secondsSinceStart (startOfYear - 1)) zero.
Proof. num_decide. Qed.

Lemma remaining_at_zero : remainingKm3 zero = START_VOLUME_KM3.
Proof. vm_compute. reflexivity. Qed.

(** X8: with the clock before the epoch, the remaining volume is not capped
    at the starting volume (it is at least 46.4), and the melted volume and
    the truck count are printed with a leading minus sign. *)
Theorem before_epoch `{Host} (now : Z) :
  valid_time now -> now < startOfYear ->
  le START_VOLUME_KM3 (remainingKm3 (secondsSinceStart now)) /\
  (exists k,
     meltedM3 (secondsSinceStart now) = Fin true k /\ k <> 0%N /\
     formatNumber (toFixed 0 (meltedM3 (secondsSinceStart now)))
     = String "-" (group3_spec (decimal (nearest_scaled 0 k)))) /\
  (exists k,
     trucks (secondsSinceStart now) = Fin true k /\ k <> 0%N /\
     formatNumber (toFixed 0 (trucks (secondsSinceStart now)))
     = String "-" (group3_spec (decimal (nearest_scaled 0 k)))).
Proof.
  intros V Hnow.
  assert (le (secondsSinceStart now) (secondsSinceStart (startOfYear - 1)))
    as T by (apply secondsSinceStart_mono; lia).
  pose proof just_before_epoch as (_ & _ & J).
  assert (lt (secondsSinceStart now) zero) as Tneg.
  { destruct T as (N1 & _ & T). split; [exact N1|]. split; [reflexivity|]. lia. }
  pose proof (secondsSinceStart_in_range now) as R.
  destruct (clock_values_fixed now V)
    as (_ & (sm & km & Em & Bm) & (st & kt & Et & Bt)).
  cbv zeta in Em, Et.
  split.
  { rewrite <- remaining_at_zero. apply remaining_antitone.
    - exact R.
    - apply top_pos.
    - destruct Tneg as (N1 & N2 & L). split; [exact N1|]. split; [exact N2|]. lia. }
  assert (forall x s k, lt x zero -> x = Fin s k -> s = true /\ k <> 0%N) as Sg.
  { intros x s k (_ & _ & L) ->. change (key zero) with 0 in L.
    cbn [key] in L. unfold sval in L. destruct s; split; try reflexivity; lia. }
  split.
  - destruct MELT_RATE_M3_PER_SEC_fin as (kr & Er & Hr).
    assert (lt (meltedM3 (secondsSinceStart now)) zero) as L.
    { unfold meltedM3. rewrite Er. apply mul_ge1_neg; assumption. }
    destruct (Sg _ _ _ L Em) as (-> & Nk).
    exists km. split; [exact Em|]. split; [exact Nk|].
    rewrite Em, FixedFacts.toFixed_finite by assumption.
    unfold minus_sign.
    replace (km =? 0)%N with false by (symmetry; apply N.eqb_neq; exact Nk).
    cbn [andb negb append fixed_digits].
    rewrite formatNumber_minus by apply FixedFacts.decimal_digits.
    rewrite formatNumber_digits by apply FixedFacts.decimal_digits.
    reflexivity.
  - destruct TRUCK_RATE_PER_SEC_fin as (kr & Er & Hr).
    assert (lt (trucks (secondsSinceStart now)) zero) as L.
    { unfold trucks. rewrite Er. apply mul_ge1_neg; assumption. }
    destruct (Sg _ _ _ L Et) as (-> & Nk).
    exists kt. split; [exact Et|]. split; [exact Nk|].
    rewrite Et, FixedFacts.toFixed_finite by assumption.
    unfold minus_sign.
    replace (kt =? 0)%N with false by (symmetry; apply N.eqb_neq; exact Nk).
    cbn [andb negb append fixed_digits].
    rewrite formatNumber_minus by apply FixedFacts.decimal_digits.
    rewrite formatNumber_digits by apply FixedFacts.decimal_digits.
    reflexivity.
Qed.

Lemma before_epoch_witness :
  valid_time 0 /\ 0 < startOfYear /\
  le START_VOLUME_KM3 (remainingKm3 (secondsSinceStart 0)) /\
  (exists k,
     meltedM3 (secondsSinceStart 0) = Fin true k /\ k <> 0%N /\
     formatNumber (toFixed (H := plain_host) 0 (meltedM3 (secondsSinceStart 0)))
     = String "-" (group3_spec (decimal (nearest_scaled 0 k)))) /\
  (exists k,
     trucks (secondsSinceStart 0) = Fin true k /\ k <> 0%N /\
     formatNumber (toFixed (H := plain_host) 0 (trucks (secondsSinceStart 0)))
     = String "-" (group3_spec (decimal (nearest_scaled 0 k)))).
Proof.
  assert (valid_time 0) as V by (split; discriminate).
  assert (0 < startOfYear) as L by reflexivity.
  exact (conj V (conj L (before_epoch (H := plain_host) 0 V L))).
Defined.

(** ** The toggle and the class names of the control *)

Lemma has_token_In tok l : has_token tok l = true <-> In tok l.
Proof.
  unfold has_token. rewrite existsb_exists. split.
  - intros (x & Hx & E). apply String.eqb_eq in E. subst x. exact Hx.
  - intros H. exists tok. split; [exact H|apply String.eqb_refl].
Qed.

Lemma NoDup_token_set l : NoDup (token_set l).
Proof.
  induction l as [|t l IH]; [constructor|].
  cbn [token_set]. constructor.
  - intros H. apply filter_In in H as (_ & H).
    rewrite String.eqb_refl in H. discriminate H.
  - apply NoDup_filter, IH.
Qed.

Lemma NoDup_snoc (x : string) l : NoDup l -> ~ In x l -> NoDup (l ++ [x]).
Proof.
  intros Hl Hx. induction Hl as [|y l Hy Hl IH]; [repeat constructor; auto|].
  cbn [app]. constructor.
  - rewrite in_app_iff. intros [H|[H|[]]]; [auto|].
    apply Hx. left. symmetry. exact H.
  - apply IH. intros H. apply Hx. right. exact H.
Qed.

Lemma NoDup_token_add tok l : NoDup (token_add tok l).
Proof.
  unfold token_add. cbv zeta.
  destruct (has_token tok (token_set l)) eqn:E; [apply NoDup_token_set|].
  apply NoDup_snoc; [apply NoDup_token_set|].
  intros H. apply has_token_In in H. congruence.
Qed.

Lemma NoDup_token_remove tok l : NoDup (token_remove tok l).
Proof. apply NoDup_filter, NoDup_token_set. Qed.

Lemma has_token_add_other tok t l :
  tok <> t -> has_token tok (token_add t l) = has_token tok l.
Proof.
  intros N. unfold token_add. cbv zeta.
  destruct (has_token t (token_set l)); [apply has_token_set|].
  unfold has_token. rewrite existsb_app. cbn [existsb].
  rewrite (proj2 (String.eqb_neq tok t) N), !orb_false_r.
  apply has_token_set.
Qed.

Lemma has_token_remove_other tok t l :
  tok <> t -> has_token tok (token_remove t l) = has_token tok l.
Proof.
  intros N. unfold token_remove. rewrite has_token_filter, has_token_set.
  replace (String.eqb t tok) with false
    by (symmetry; apply String.eqb_neq; congruence).
  reflexivity.
Qed.

(** The two nodes one activation leaves behind. *)
Lemma click_nodes p v b :
  document p "background-video" = Some v ->
  document p "audio-toggle" = Some b ->
  exists p1,
    click p = Ok tt p1 /\
    document p1 "background-video"
      = Some {| textContent := textContent v; classList := classList v;
                muted := negb (muted v) |} /\
    document p1 "audio-toggle"
      = Some {| textContent := if muted v then "Ton ausschalten"
                               else "Ton abspielen";
                classList := if muted v
                             then token_add "active" (classList b)
                             else token_remove "active" (classList b);
                muted := muted b |} /\
    intervals p1 = intervals p /\ listeners p1 = listeners p /\
    window_initMap p1 = window_initMap p /\
    maps p1 = maps p /\ markers p1 = markers p.
Proof.
  intros Hv Hb. unfold click, toggleAudio, bind, read_node. rewrite Hv.
  destruct (muted v) eqn:Em.
  - eexists. split; [reflexivity|]. cbn. unfold update_node. cbn.
    rewrite Hv, Hb. cbn. rewrite ?Em.
    split; [reflexivity|]. split; [reflexivity|]. repeat split; reflexivity.
  - eexists. split; [reflexivity|]. cbn. unfold update_node. cbn.
    rewrite Hv, Hb. cbn. rewrite ?Em.
    split; [reflexivity|]. split; [reflexivity|]. repeat split; reflexivity.
Qed.

(** X10: one activation of the toggle keeps every class name of the control
    other than "active": a name is on the control afterwards exactly when
    it was before; "active" is on it exactly when the video was muted; no
    name is on it twice; and the activation registers or removes no timer,
    listener, initMap or map object. *)
Theorem click_keeps_other_class_names (p : page) (v b : node) (tok : string) :
  document p "background-video" = Some v ->
  document p "audio-toggle" = Some b ->
  tok <> "active"%string ->
  exists p1 b1,
    click p = Ok tt p1 /\
    document p1 "audio-toggle" = Some b1 /\
    has_token tok (classList b1) = has_token tok (classList b) /\
    has_token "active" (classList b1) = muted v /\
    NoDup (classList b1) /\
    intervals p1 = intervals p /\ listeners p1 = listeners p /\
    window_initMap p1 = window_initMap p /\
    maps p1 = maps p /\ markers p1 = markers p.
Proof.
  intros Hv Hb Nt.
  destruct (click_nodes p v b Hv Hb)
    as (p1 & E & _ & Hb1 & Hi & Hl & Hw & Hm & Hk).
  eexists p1, _. split; [exact E|]. split; [exact Hb1|].
  cbn [classList].
  split.
  { destruct (muted v);
      [apply has_token_add_other|apply has_token_remove_other]; exact Nt. }
  split.
  { destruct (muted v); [apply has_token_add|apply has_token_remove]. }
  split.
  { destruct (muted v); [apply NoDup_token_add|apply NoDup_token_remove]. }
  repeat split; assumption.
Qed.

Lemma click_keeps_other_class_names_witness :
  let p := sample_page "Ton abspielen" ["btn"; "btn"]%string true in
  "btn"%string <> "active"%string /\
  exists p1 b1,
    click p = Ok tt p1 /\
    document p1 "audio-toggle" = Some b1 /\
    has_token "btn" (classList b1) = true /\
    has_token "active" (classList b1) = true /\
    NoDup (classList b1) /\
    intervals p1 = intervals p /\ listeners p1 = listeners p /\
    window_initMap p1 = window_initMap p /\
    maps p1 = maps p /\ markers p1 = markers p.
Proof.
  intros p.
  assert ("btn"%string <> "active"%string) as Nt by discriminate.
  exact (conj Nt (click_keeps_other_class_names p _ _ "btn"
                    eq_refl eq_refl Nt)).
Defined.

(** X11: after n activations in a row the mute flag is the starting one
    for even n and its opposite for odd n, and from the first activation on
    the label and the mark agree with it. *)
Theorem clicks_parity (n : nat) (p : page) (v b : node) :
  document p "background-video" = Some v ->
  document p "audio-toggle" = Some b ->
  exists pn,
    clicks n p = Ok tt pn /\
    mute_flag pn = Some (if Nat.even n then muted v else negb (muted v)) /\
    (n <> 0%nat -> control_consistent pn).
Proof.
  revert p v b. induction n as [|n IH]; intros p v b Hv Hb.
  - exists p. split; [reflexivity|].
    split; [unfold mute_flag; rewrite Hv; reflexivity|]. congruence.
  - destruct (click_once p v b Hv Hb)
      as (p1 & v1 & b1 & E & Hv1 & Hb1 & Hm & Ht & Hc).
    destruct (IH p1 v1 b1 Hv1 Hb1) as (pn & En & Mn & Cn).
    exists pn. split.
    { cbn [clicks]. unfold bind. rewrite E. exact En. }
    split.
    { rewrite Mn, Hm, Nat.even_succ, <- Nat.negb_even.
      destruct (Nat.even n), (muted v); reflexivity. }
    intros _. destruct n as [|n'].
    + cbn [clicks] in En. injection En as <-.
      exists (negb (muted v)). unfold mute_flag, label, visual_active.
      rewrite Hv1, Hb1. cbn [option_map]. rewrite Hm, Ht, Hc.
      destruct (muted v); repeat split.
    + apply Cn. discriminate.
Qed.

Lemma clicks_parity_witness :
  document (sample_page "Ton abspielen" [] true) "background-video"
    = Some {| textContent := ""; classList := []; muted := true |} /\
  exists pn,
    clicks 3 (sample_page "Ton abspielen" [] true) = Ok tt pn /\
    mute_flag pn = Some false /\
    (3%nat <> 0%nat -> control_consistent pn).
Proof.
  split; [reflexivity|].
  exact (clicks_parity 3 (sample_page "Ton abspielen" [] true) _ _
           eq_refl eq_refl).
Defined.

(** ** After startup *)

(** With the three counter regions found, the script's page is that of its
    first counter update, with the timer added. *)
Lemma script_runs_update `{Host} now p :
  has "volume-remaining" p && has "melted-since" p && has "truck-count" p
    = true ->
  exists p1 nv nm nt,
    updateCounters now (Some "volume-remaining"%string)
      (Some "melted-since"%string) (Some "truck-count"%string) p = Ok tt p1 /\
    document (page_of (script now p)) = document p1 /\
    document p1 "volume-remaining" = Some nv /\
    document p1 "melted-since" = Some nm /\
    document p1 "truck-count" = Some nt.
Proof.
  intros Hr. apply andb_prop in Hr as (Hr & Ht).
  apply andb_prop in Hr as (Hv & Hm). unfold has in Hv, Hm, Ht.
  destruct (document p "volume-remaining") as [nv|] eqn:Ev; [|discriminate].
  destruct (document p "melted-since") as [nm|] eqn:Em; [|discriminate].
  destruct (document p "truck-count") as [nt|] eqn:Et; [|discriminate].
  destruct (updateCounters_shows now p nv nm nt Ev Em Et)
    as (p1 & E & S1 & S2 & S3 & _).
  unfold shown in S1, S2, S3.
  destruct (document p1 "volume-remaining") as [nv1|] eqn:Ev1; [|discriminate].
  destruct (document p1 "melted-since") as [nm1|] eqn:Em1; [|discriminate].
  destruct (document p1 "truck-count") as [nt1|] eqn:Et1; [|discriminate].
  exists p1, nv1, nm1, nt1. split; [exact E|].
  split; [|repeat split; assumption].
  unfold script, bind, getElementById. rewrite Ev, Em, Et.
  destruct (document p "audio-toggle"), (document p "background-video");
    rewrite E; reflexivity.
Qed.

(** The page as the timer needs it: the one registration of the script,
    and the three regions in the document. *)
Lemma tick_step `{Host} later q nv nm nt :
  intervals q
    = [(UpdateCounters (Some "volume-remaining"%string)
          (Some "melted-since"%string) (Some "truck-count"%string), 1000)] ->
  document q "volume-remaining" = Some nv ->
  document q "melted-since" = Some nm ->
  document q "truck-count" = Some nt ->
  exists q' nv' nm' nt',
    tick later q = Ok tt q' /\
    intervals q' = intervals q /\
    document q' "volume-remaining" = Some nv' /\
    document q' "melted-since" = Some nm' /\
    document q' "truck-count" = Some nt' /\
    shown "volume-remaining" q'
      = Some (toFixed 2 (remainingKm3 (secondsSinceStart later))) /\
    shown "melted-since" q'
      = Some (formatNumber (toFixed 0 (meltedM3 (secondsSinceStart later)))) /\
    shown "truck-count" q'
      = Some (formatNumber (toFixed 0 (trucks (secondsSinceStart later)))).
Proof.
  intros I Ev Em Et.
  destruct (updateCounters_shows later q nv nm nt Ev Em Et)
    as (q' & E & S1 & S2 & S3 & I' & _).
  pose proof S1 as D1. pose proof S2 as D2. pose proof S3 as D3.
  unfold shown in D1, D2, D3.
  destruct (document q' "volume-remaining") as [nv'|] eqn:Ev'; [|discriminate].
  destruct (document q' "melted-since") as [nm'|] eqn:Em'; [|discriminate].
  destruct (document q' "truck-count") as [nt'|] eqn:Et'; [|discriminate].
  exists q', nv', nm', nt'.
  split.
  { unfold tick. rewrite I. cbn [run_callbacks run_callback].
    unfold bind. rewrite E. reflexivity. }
  split; [exact I'|].
  split; [exact Ev'|]. split; [exact Em'|]. split; [exact Et'|].
  split; [exact S1|]. split; [exact S2|exact S3].
Qed.

Lemma ticks_show_last `{Host} clock last q nv nm nt :
  intervals q
    = [(UpdateCounters (Some "volume-remaining"%string)
          (Some "melted-since"%string) (Some "truck-count"%string), 1000)] ->
  document q "volume-remaining" = Some nv ->
  document q "melted-since" = Some nm ->
  document q "truck-count" = Some nt ->
  exists qn,
    ticks (clock ++ [last]) q = Ok tt qn /\
    intervals qn = intervals q /\
    shown "volume-remaining" qn
      = Some (toFixed 2 (remainingKm3 (secondsSinceStart last))) /\
    shown "melted-since" qn
      = Some (formatNumber (toFixed 0 (meltedM3 (secondsSinceStart last)))) /\
    shown "truck-count" qn
      = Some (formatNumber (toFixed 0 (trucks (secondsSinceStart last)))).
Proof.
  revert q nv nm nt. induction clock as [|c clock IH]; intros q nv nm nt I Ev Em Et.
  - destruct (tick_step last q nv nm nt I Ev Em Et)
      as (q' & _ & _ & _ & E & I' & _ & _ & _ & S1 & S2 & S3).
    exists q'. split.
    { cbn [app ticks]. unfold bind. rewrite E. reflexivity. }
    split; [exact I'|]. split; [exact S1|]. split; [exact S2|exact S3].
  - destruct (tick_step c q nv nm nt I Ev Em Et)
      as (q' & nv' & nm' & nt' & E & I' & Ev' & Em' & Et' & _).
    rewrite <- I' in I.
    destruct (IH q' nv' nm' nt' I Ev' Em' Et') as (qn & En & In & S).
    exists qn. split.
    { cbn [app ticks]. unfold bind. rewrite E. exact En. }
    split; [congruence|exact S].
Qed.

(** X12: once the three counter regions were found at startup, the timer
    keeps them current: after any number of firings in a row the three
    regions hold the values for the clock of the last firing, and the
    script's registration is still the only timer, whether or not the rest
    of the startup went through. *)
Theorem timer_keeps_counters_current `{Host} (now : Z) (clock : list Z)
    (last : Z) (p : page) :
  has "volume-remaining" p && has "melted-since" p && has "truck-count" p
    = true ->
  intervals p = [] ->
  exists pn,
    ticks (clock ++ [last]) (page_of (script now p)) = Ok tt pn /\
    intervals pn
      = [(UpdateCounters (Some "volume-remaining"%string)
            (Some "melted-since"%string) (Some "truck-count"%string), 1000)] /\
    shown "volume-remaining" pn
      = Some (toFixed 2 (remainingKm3 (secondsSinceStart last))) /\
    shown "melted-since" pn
      = Some (formatNumber (toFixed 0 (meltedM3 (secondsSinceStart last)))) /\
    shown "truck-count" pn
      = Some (formatNumber (toFixed 0 (trucks (secondsSinceStart last)))).
Proof.
  intros Hr Hi.
  destruct (script_runs_update now p Hr)
    as (p1 & nv & nm & nt & _ & Ed & Ev & Em & Et).
  destruct (script_outcome now p) as (_ & I & _).
  cbv zeta in I. rewrite Hr, Hi in I. cbn [app] in I.
  rewrite <- Ed in Ev, Em, Et.
  destruct (ticks_show_last clock last (page_of (script now p)) nv nm nt
              I Ev Em Et) as (pn & E & In & S).
  exists pn. split; [exact E|]. split; [congruence|exact S].
Qed.

Lemma timer_keeps_counters_current_witness :
  let p := without "audio-toggle" (sample_page "" [] true) in
  has "volume-remaining" p && has "melted-since" p && has "truck-count" p
    = true /\
  exists pn,
    ticks (H := plain_host)
      ([startOfYear + 1000; startOfYear + 2000] ++ [startOfYear + 3000])
      (page_of (script (H := plain_host) startOfYear p)) = Ok tt pn /\
    intervals pn
      = [(UpdateCounters (Some "volume-remaining"%string)
            (Some "melted-since"%string) (Some "truck-count"%string), 1000)] /\
    shown "volume-remaining" pn
      = Some (toFixed (H := plain_host) 2
                (remainingKm3 (secondsSinceStart (startOfYear + 3000)))) /\
    shown "melted-since" pn
      = Some (formatNumber (toFixed (H := plain_host) 0
                (meltedM3 (secondsSinceStart (startOfYear + 3000))))) /\
    shown "truck-count" pn
      = Some (formatNumber (toFixed (H := plain_host) 0
                (trucks (secondsSinceStart (startOfYear + 3000))))).
Proof.
  intros p.
  exact (conj eq_refl
           (timer_keeps_counters_current (H := plain_host) startOfYear
              [startOfYear + 1000; startOfYear + 2000] (startOfYear + 3000)
              p eq_refl eq_refl)).
Defined.

(** X13: a page without the video still starts up without an error, but
    then every click on the control throws a TypeError at the first read of
    the mute flag and leaves the page as it was. *)
Theorem missing_video_fails_on_click `{Host} (now later : Z) (p : page) :
  document p "background-video" = None ->
  has "volume-remaining" p && has "melted-since" p && has "truck-count" p
    && has "audio-toggle" p = true ->
  listeners p = [] ->
  let p1 := page_of (script now p) in
  threw (script now p) = false /\
  dispatch later "audio-toggle" "click" p1 = Throw TypeError p1.
Proof.
  intros Hv Hr Hl p1.
  destruct (script_outcome now p) as (T & _ & L & _).
  cbv zeta in T, L. rewrite Hr in T, L. unfold has at 1 in L.
  rewrite Hv, Hl in L. cbn [app] in L.
  split; [exact T|].
  unfold dispatch. fold p1 in L. rewrite L. reflexivity.
Qed.

Lemma missing_video_fails_on_click_witness :
  let p := without "background-video" (sample_page "" [] true) in
  let p1 := page_of (script (H := plain_host) startOfYear p) in
  document p "background-video" = None /\
  threw (script (H := plain_host) startOfYear p) = false /\
  dispatch (H := plain_host) (startOfYear + 5000) "audio-toggle" "click" p1
    = Throw TypeError p1.
Proof.
  intros p p1.
  exact (conj eq_refl
           (missing_video_fails_on_click (H := plain_host) startOfYear
              (startOfYear + 5000) p eq_refl eq_refl eq_refl)).
Defined.

(** X14: after a complete startup of a page with no listener of its own, a
    click that reaches the control runs one activation of the toggle and
    nothing more, and an event of any other type that reaches the control
    runs nothing. *)
Theorem only_the_click_listener `{Host} (now later : Z) (p : page)
    (v : node) (type : string) :
  document p "background-video" = Some v ->
  has "volume-remaining" p && has "melted-since" p && has "truck-count" p
    && has "audio-toggle" p = true ->
  listeners p = [] ->
  type <> "click"%string ->
  let p1 := page_of (script now p) in
  dispatch later "audio-toggle" "click" p1 = click p1 /\
  dispatch later "audio-toggle" type p1 = Ok tt p1.
Proof.
  intros Hv Hr Hl Hne p1.
  destruct (script_outcome now p) as (_ & _ & L & _).
  cbv zeta in L. rewrite Hr in L. unfold has at 1 in L.
  rewrite Hv, Hl in L. cbn [app] in L. fold p1 in L.
  unfold dispatch. rewrite L. split.
  - cbn [run_listeners]. rewrite !String.eqb_refl. cbn [andb run_callback].
    unfold bind, click. destruct (toggleAudio _ _ p1) as [[] p'|e p'];
      reflexivity.
  - cbn [run_listeners].
    replace (String.eqb "click" type) with false
      by (symmetry; apply String.eqb_neq; congruence).
    rewrite andb_false_r. reflexivity.
Qed.

Lemma only_the_click_listener_witness :
  let p := sample_page "Ton abspielen" [] true in
  let p1 := page_of (script (H := plain_host) startOfYear p) in
  "mouseover"%string <> "click"%string /\
  dispatch (H := plain_host) (startOfYear + 5000) "audio-toggle" "click" p1
    = click p1 /\
  dispatch (H := plain_host) (startOfYear + 5000) "audio-toggle" "mouseover" p1
    = Ok tt p1.
Proof.
  intros p p1.
  assert ("mouseover"%string <> "click"%string) as N by discriminate.
  exact (conj N
           (only_the_click_listener (H := plain_host) startOfYear
              (startOfYear + 5000) p _ "mouseover"
              eq_refl eq_refl eq_refl N)).
Defined.
